(** * Quakemon: the data synchronisation logic of [src/App.tsx]

    A shallow embedding of the non-presentational part of the [App]
    component: the magnitude classification, the change signature
    ([generateDataHash]), the XML and list-feed decoding, one refresh cycle
    ([fetchAllEarthquakeData]) as a transition on the component state, and
    the auto-update effect.

    Conventions.  A JavaScript string is a list of UTF-16 code units
    ([JSString.t]); the texts the program itself writes down (class names,
    console messages, tag names, the base64 signature) are kept as [string].
    A number is the binary64 value: [parseFloat] rounds the decimal it reads
    to the nearest one, ties to the even significand, as the engines do.
    The payloads handed to the component by the browser are taken already
    decoded: an XML body is the tree built by [DOMParser], a JSON body is a
    value of the declared type [RecentEarthquakeData].  The setters called
    without an [await] between them take effect together, in one render,
    and the [Notification] constructor does not throw. *)

From Stdlib Require Import Bool List Arith ZArith QArith Lia Permutation.
From Stdlib Require Import Ascii String.
Import ListNotations.

Local Close Scope Q_scope.
Local Open Scope string_scope.
Local Open Scope list_scope.
Local Open Scope bool_scope.

#[local] Set Warnings "-register-all,-notation-for-abbreviation".

(** ** Strings *)

Module JSString.

(** A code unit: [Latin a] is one of 0..255, [Above p] is the code unit
    255 + p. *)
Inductive char : Type :=
| Latin (a : ascii)
| Above (p : positive).

Definition code (c : char) : N :=
  match c with
  | Latin a => N_of_ascii a
  | Above p => (255 + Npos p)%N
  end.

Definition ofCode (n : N) : char :=
  if (n <? 256)%N then Latin (ascii_of_N n) else Above (N.succ_pos (n - 256)).

Definition char_eqb (a b : char) : bool :=
  match a, b with
  | Latin x, Latin y => Ascii.eqb x y
  | Above p, Above q => Pos.eqb p q
  | _, _ => false
  end.

Definition t : Type := list char.

(** The JavaScript string written with the characters of a [string]. *)
Fixpoint lit (s : string) : t :=
  match s with
  | EmptyString => []
  | String a r => Latin a :: lit r
  end.

(** The characters of a string that has no code unit above 255. *)
Fixpoint toLatin (s : t) : option string :=
  match s with
  | [] => Some EmptyString
  | Latin a :: r => option_map (String a) (toLatin r)
  | Above _ :: _ => None
  end.

(** White space as [String.prototype.trim] and [parseFloat] see it: TAB,
    LF, VT, FF, CR, SP, NBSP, the other space separators, LS, PS and the
    byte order mark. *)
Definition isWhiteSpace (c : char) : bool :=
  match code c with
  | 9%N | 10%N | 11%N | 12%N | 13%N | 32%N | 160%N
  | 5760%N
  | 8192%N | 8193%N | 8194%N | 8195%N | 8196%N | 8197%N
  | 8198%N | 8199%N | 8200%N | 8201%N | 8202%N
  | 8232%N | 8233%N | 8239%N | 8287%N | 12288%N | 65279%N => true
  | _ => false
  end.

Fixpoint trimStart (s : t) : t :=
  match s with
  | [] => []
  | c :: r => if isWhiteSpace c then trimStart r else s
  end.

Fixpoint trimEnd (s : t) : t :=
  match s with
  | [] => []
  | c :: r =>
      match trimEnd r with
      | [] => if isWhiteSpace c then [] else [c]
      | r' => c :: r'
      end
  end.

Definition trim (s : t) : t := trimEnd (trimStart s).

(** A string is truthy when it is not empty. *)
Definition truthy (s : t) : bool :=
  match s with [] => false | _ :: _ => true end.

(** [a || b] on strings. *)
Definition orElse (a b : t) : t := if truthy a then a else b.

(** [Array.prototype.join] on an array of strings. *)
Fixpoint join (sep : t) (l : list t) : t :=
  match l with
  | [] => []
  | [x] => x
  | x :: r => x ++ sep ++ join sep r
  end.

(** Whether the character [c] occurs in [s]. *)
Fixpoint includesChar (c : char) (s : t) : bool :=
  match s with
  | [] => false
  | d :: r => char_eqb c d || includesChar c r
  end.

End JSString.

Notation jsstring := JSString.t.
Notation js := JSString.lit.
Coercion JSString.lit : string >-> JSString.t.

(** The comma as a code unit. *)
Definition comma : JSString.char := JSString.Latin ","%char.

(** ** Numbers and [parseFloat] *)

Module JSNumber.

Inductive t : Type :=
| NaN
| Finite (q : Q)
| Infinity (negative : bool).

(** [a < b] *)
Definition lt (a b : t) : bool :=
  match a, b with
  | NaN, _ | _, NaN => false
  | Finite x, Finite y => negb (Qle_bool y x)
  | Finite _, Infinity n => negb n
  | Infinity n, Finite _ => n
  | Infinity n, Infinity m => n && negb m
  end.

(** [a >= b] *)
Definition ge (a b : t) : bool :=
  match a, b with
  | NaN, _ | _, NaN => false
  | Finite x, Finite y => Qle_bool y x
  | Finite _, Infinity n => n
  | Infinity n, Finite _ => negb n
  | Infinity n, Infinity m => negb n || m
  end.

Definition ofZ (z : Z) : t := Finite (inject_Z z).

(** The binary64 number nearest to [num / den], for [0 <= num] and
    [0 < den]: 53 significant bits, exponent of the last bit at least
    -1074, ties to the even significand, and infinity from 2^1024 on. *)
Definition roundBinary64 (num den : Z) : t :=
  if (num =? 0)%Z then Finite 0
  else
    let l := (Z.log2 num - Z.log2 den)%Z in
    let reaches :=
      if (0 <=? l)%Z then (den * 2 ^ l <=? num)%Z
      else (den <=? num * 2 ^ (- l))%Z in
    let magnitude := if reaches then l else (l - 1)%Z in
    let e := Z.max (magnitude - 52) (-1074) in
    let n := if (0 <=? e)%Z then num else (num * 2 ^ (- e))%Z in
    let d := if (0 <=? e)%Z then (den * 2 ^ e)%Z else den in
    let q := (n / d)%Z in
    let r := (n mod d)%Z in
    let m :=
      if (d <? 2 * r)%Z || ((d =? 2 * r)%Z && Z.odd q) then (q + 1)%Z else q in
    if (0 <=? e)%Z then
      if (2 ^ 1024 <=? m * 2 ^ e)%Z then Infinity false
      else Finite (inject_Z (m * 2 ^ e))
    else Finite (m # Z.to_pos (2 ^ (- e))).

(** The number written as [mantissa] times ten to the [exponent]. *)
Definition ofDecimal (mantissa : N) (exponent : Z) : t :=
  if (0 <=? exponent)%Z then roundBinary64 (Z.of_N mantissa * 10 ^ exponent) 1
  else roundBinary64 (Z.of_N mantissa) (10 ^ (- exponent)).

Definition digitValue (c : JSString.char) : option N :=
  match c with
  | JSString.Latin a =>
      let n := N_of_ascii a in
      if ((48 <=? n) && (n <=? 57))%N then Some (n - 48)%N else None
  | JSString.Above _ => None
  end.

(** The longest run of decimal digits at the front of [s]: the number
    read so far, how many digits were read, and what follows. *)
Fixpoint scanDigits (s : jsstring) (acc : N) (count : nat) : N * nat * jsstring :=
  match s with
  | [] => (acc, count, s)
  | c :: r =>
      match digitValue c with
      | Some d => scanDigits r (10 * acc + d)%N (S count)
      | None => (acc, count, s)
      end
  end.

(** An exponent part [e], [e+] or [e-] followed by at least one digit;
    anything else is not part of the literal and counts as exponent 0. *)
Definition scanExponent (s : jsstring) : Z :=
  match s with
  | JSString.Latin c :: r =>
      if (Ascii.eqb c "e" || Ascii.eqb c "E")%char then
        let '(neg, r') :=
          match r with
          | JSString.Latin "+"%char :: r' => (false, r')
          | JSString.Latin "-"%char :: r' => (true, r')
          | _ => (false, r)
          end in
        let '(e, n, _) := scanDigits r' 0%N 0 in
        match n with
        | O => 0%Z
        | S _ => if neg then (- Z.of_N e)%Z else Z.of_N e
        end
      else 0%Z
  | _ => 0%Z
  end.

Definition negate (v : t) : t :=
  match v with
  | NaN => NaN
  | Finite q => Finite (- q)%Q
  | Infinity n => Infinity (negb n)
  end.

Fixpoint startsWith (prefix s : jsstring) : bool :=
  match prefix, s with
  | [], _ => true
  | p :: prefix', c :: s' => JSString.char_eqb p c && startsWith prefix' s'
  | _ :: _, [] => false
  end.

(** The longest prefix that is an unsigned decimal literal. *)
Definition parseUnsigned (s : jsstring) : t :=
  if startsWith "Infinity" s then Infinity false
  else
    let '(ip, ni, r1) := scanDigits s 0%N 0 in
    let '(m, nf, r2) :=
      match r1 with
      | JSString.Latin "."%char :: r => scanDigits r ip 0
      | _ => (ip, O, r1)
      end in
    match (ni + nf)%nat with
    | O => NaN
    | S _ => ofDecimal m (scanExponent r2 - Z.of_nat nf)
    end.

(** [parseFloat(s)]: leading white space is skipped, then the longest
    prefix that is a signed decimal literal is read and rounded; [NaN]
    when there is none. *)
Definition parseFloat (s : jsstring) : t :=
  match JSString.trimStart s with
  | JSString.Latin "+"%char :: r => parseUnsigned r
  | JSString.Latin "-"%char :: r => negate (parseUnsigned r)
  | r => parseUnsigned r
  end.

End JSNumber.

(** ** Magnitude classification (lines 229-256) *)

Record MagnitudeInfo : Type := mkMagnitudeInfo {
  classification : string;
  color : string;
  bgColor : string;
  borderColor : string;
  icon : string
}.

Definition getMagnitudeInfo (darkMode : bool) (magnitude : jsstring) : MagnitudeInfo :=
  let mag := JSNumber.parseFloat magnitude in
  if JSNumber.lt mag (JSNumber.ofZ 5) then
    {| classification := "Gempa Ringan";
       color := if darkMode then "text-green-400" else "text-green-600";
       bgColor := if darkMode then "bg-green-900/20" else "bg-green-50";
       borderColor := if darkMode then "border-green-700" else "border-green-200";
       icon := "🟢" |}
  else if JSNumber.lt mag (JSNumber.ofZ 6) then
    {| classification := "Gempa Sedang";
       color := if darkMode then "text-yellow-400" else "text-yellow-600";
       bgColor := if darkMode then "bg-yellow-900/20" else "bg-yellow-50";
       borderColor := if darkMode then "border-yellow-700" else "border-yellow-200";
       icon := "🟡" |}
  else
    {| classification := "Gempa Kuat";
       color := if darkMode then "text-red-400" else "text-red-600";
       bgColor := if darkMode then "bg-red-900/20" else "bg-red-50";
       borderColor := if darkMode then "border-red-700" else "border-red-200";
       icon := "🔴" |}.

(** ** Feed records (lines 4-37) *)

Record EarthquakeData : Type := mkEarthquakeData {
  Tanggal : jsstring;
  Jam : jsstring;
  DateTime : jsstring;
  coordinates : jsstring;
  Lintang : jsstring;
  Bujur : jsstring;
  Magnitude : jsstring;
  Kedalaman : jsstring;
  Wilayah : jsstring;
  Potensi : jsstring;
  Dirasakan : jsstring;
  Shakemap : jsstring
}.

(** The fields of [RecentEarthquake] carry the prefix [re_]: the two
    interfaces share their field names. *)
Record RecentEarthquake : Type := mkRecentEarthquake {
  re_Tanggal : jsstring;
  re_Jam : jsstring;
  re_DateTime : jsstring;
  re_Coordinates : jsstring;
  re_Lintang : jsstring;
  re_Bujur : jsstring;
  re_Magnitude : jsstring;
  re_Kedalaman : jsstring;
  re_Wilayah : jsstring;
  re_Potensi : jsstring;
  re_Dirasakan : option jsstring
}.

(** [{ Infogempa: { gempa: RecentEarthquake[] } }]; the code reads both
    levels through [?.], so either may be missing. *)
Record Infogempa_t : Type := mkInfogempa {
  gempa : option (list RecentEarthquake)
}.

Record RecentEarthquakeData : Type := mkRecentEarthquakeData {
  Infogempa : option Infogempa_t
}.

(** ** The change signature (lines 66-73) *)

Module JSON.

Definition dquote : JSString.char := JSString.Latin "034"%char.
Definition backslash : JSString.char := JSString.Latin "092"%char.

Definition hexDigit (n : N) : JSString.char :=
  JSString.Latin
    match String.get (N.to_nat n) "0123456789abcdef" with
    | Some c => c
    | None => "0"%char
    end.

(** The escape of the code unit [n], four lower-case hexadecimal digits
    after a backslash and a u. *)
Definition unicodeEscape (n : N) : jsstring :=
  [backslash; JSString.Latin "u"%char;
   hexDigit (n / 4096); hexDigit ((n / 256) mod 16);
   hexDigit ((n / 16) mod 16); hexDigit (n mod 16)].

Definition isHighSurrogate (c : JSString.char) : bool :=
  ((55296 <=? JSString.code c) && (JSString.code c <=? 56319))%N.

Definition isLowSurrogate (c : JSString.char) : bool :=
  ((56320 <=? JSString.code c) && (JSString.code c <=? 57343))%N.

(** One code unit of a quoted JSON string, when it is not half of a
    surrogate pair: the short escapes, the control characters and the
    lone surrogates are escaped, everything else is kept. *)
Definition escapeUnit (c : JSString.char) : jsstring :=
  match c with
  | JSString.Latin a =>
      let n := N_of_ascii a in
      match n with
      | 8%N => [backslash; JSString.Latin "b"%char]
      | 9%N => [backslash; JSString.Latin "t"%char]
      | 10%N => [backslash; JSString.Latin "n"%char]
      | 12%N => [backslash; JSString.Latin "f"%char]
      | 13%N => [backslash; JSString.Latin "r"%char]
      | 34%N => [backslash; dquote]
      | 92%N => [backslash; backslash]
      | _ => if (n <? 32)%N then unicodeEscape n else [c]
      end
  | JSString.Above _ =>
      if isHighSurrogate c || isLowSurrogate c then unicodeEscape (JSString.code c)
      else [c]
  end.

(** A high surrogate followed by a low one is one character and is kept
    as it is. *)
Fixpoint escape (s : jsstring) : jsstring :=
  match s with
  | [] => []
  | c :: r =>
      if isHighSurrogate c then
        match r with
        | l :: r' =>
            if isLowSurrogate l then c :: l :: escape r'
            else escapeUnit c ++ escape r
        | [] => escapeUnit c
        end
      else escapeUnit c ++ escape r
  end.

Definition quote (s : jsstring) : jsstring :=
  dquote :: escape s ++ [dquote].

(** [JSON.stringify] of the object literal of [generateDataHash]: three
    string-valued properties in insertion order. *)
Definition stringifyData (latest recent felt : jsstring) : jsstring :=
  js "{" ++ quote "latest" ++ js ":" ++ quote latest ++
  js "," ++ quote "recent" ++ js ":" ++ quote recent ++
  js "," ++ quote "felt" ++ js ":" ++ quote felt ++ js "}".

End JSON.

Module Base64.

(** Six bits, most significant first. *)
Definition sextet : Type := (bool * bool * bool * bool * bool * bool)%type.

Definition index (x : sextet) : nat :=
  let '(b5, b4, b3, b2, b1, b0) := x in
  (if b5 then 32 else 0) + (if b4 then 16 else 0) + (if b3 then 8 else 0) +
  (if b2 then 4 else 0) + (if b1 then 2 else 0) + (if b0 then 1 else 0).

Definition alphabet : string :=
  "ABCDEFGHIJKLMNOPQRSTUVWXYZabcdefghijklmnopqrstuvwxyz0123456789+/".

Definition pad : ascii := "="%char.

Definition digit (x : sextet) : ascii :=
  match String.get (index x) alphabet with
  | Some c => c
  | None => pad
  end.

(** Base64 of a sequence of bytes: three bytes (24 bits) become four
    digits; a rest of one or two bytes is padded with [=].  In
    [Ascii b0 .. b7] the bit [b0] is the least significant. *)
Fixpoint encode (s : string) : string :=
  match s with
  | EmptyString => EmptyString
  | String (Ascii a0 a1 a2 a3 a4 a5 a6 a7) EmptyString =>
      String (digit (a7, a6, a5, a4, a3, a2))
     (String (digit (a1, a0, false, false, false, false))
     (String pad (String pad EmptyString)))
  | String (Ascii a0 a1 a2 a3 a4 a5 a6 a7)
      (String (Ascii b0 b1 b2 b3 b4 b5 b6 b7) EmptyString) =>
      String (digit (a7, a6, a5, a4, a3, a2))
     (String (digit (a1, a0, b7, b6, b5, b4))
     (String (digit (b3, b2, b1, b0, false, false))
     (String pad EmptyString)))
  | String (Ascii a0 a1 a2 a3 a4 a5 a6 a7)
      (String (Ascii b0 b1 b2 b3 b4 b5 b6 b7)
        (String (Ascii c0 c1 c2 c3 c4 c5 c6 c7) r)) =>
      String (digit (a7, a6, a5, a4, a3, a2))
     (String (digit (a1, a0, b7, b6, b5, b4))
     (String (digit (b3, b2, b1, b0, c7, c6))
     (String (digit (c5, c4, c3, c2, c1, c0)) (encode r))))
  end.

End Base64.

(** [btoa]: the base64 of the string read as bytes.  It raises
    [InvalidCharacterError] when a code unit is above 255; [None] stands
    for that exception. *)
Definition btoa (s : jsstring) : option string :=
  option_map Base64.encode (JSString.toLatin s).

(** [latest?.DateTime || ''] *)
Definition latestDateTime (latest : option EarthquakeData) : jsstring :=
  match latest with
  | Some l => JSString.orElse (DateTime l) ""
  | None => ""
  end.

(** [None] when [btoa] throws. *)
Definition generateDataHash (latest : option EarthquakeData)
    (recent felt : list RecentEarthquake) : option string :=
  btoa
    (JSON.stringifyData
       (latestDateTime latest)
       (JSString.join "," (map re_DateTime recent))
       (JSString.join "," (map re_DateTime felt))).

(** ** Side effects a refresh cycle can have besides the state update *)

Inductive Effect : Type :=
| ConsoleError (message : string)
| ConsoleWarn (message : string)
| ShowNotification (title : string) (body : jsstring) (icon : string).

Definition isNotification (e : Effect) : bool :=
  match e with ShowNotification _ _ _ => true | _ => false end.

Definition notificationFired (effects : list Effect) : bool :=
  existsb isNotification effects.

(** ** The latest-event document (lines 75-108) *)

Module DOM.

Inductive Node : Type :=
| Element (tagName : string) (childNodes : list Node)
| Text (data : jsstring).

(** The first element named [tag] among [n] and its descendants, in
    document order. *)
Fixpoint firstMatch (tag : string) (n : Node) : option Node :=
  match n with
  | Text _ => None
  | Element t cs =>
      if String.eqb t tag then Some n
      else
        (fix among (l : list Node) : option Node :=
           match l with
           | [] => None
           | c :: r =>
               match firstMatch tag c with
               | Some x => Some x
               | None => among r
               end
           end) cs
  end.

Fixpoint firstMatchAmong (tag : string) (l : list Node) : option Node :=
  match l with
  | [] => None
  | c :: r =>
      match firstMatch tag c with
      | Some x => Some x
      | None => firstMatchAmong tag r
      end
  end.

(** [document.querySelector(tag)]: the document is given by its
    document element. *)
Definition documentQuerySelector (tag : string) (documentElement : Node) : option Node :=
  firstMatch tag documentElement.

(** [element.querySelector(tag)]: descendants only. *)
Definition querySelector (tag : string) (element : Node) : option Node :=
  match element with
  | Element _ cs => firstMatchAmong tag cs
  | Text _ => None
  end.

Fixpoint textContent (n : Node) : jsstring :=
  match n with
  | Text d => d
  | Element _ cs =>
      (fix all (l : list Node) : jsstring :=
         match l with
         | [] => []
         | c :: r => textContent c ++ all r
         end) cs
  end.

End DOM.

(** [element?.textContent?.trim() || ''] *)
Definition getData (gempaElement : DOM.Node) (tagName : string) : jsstring :=
  match DOM.querySelector tagName gempaElement with
  | Some element => JSString.orElse (JSString.trim (DOM.textContent element)) ""
  | None => ""
  end.

(** The exception thrown for a missing [gempa] element is caught inside the
    function: it is logged and [null] is returned. *)
Definition parseXMLData (xmlDoc : DOM.Node) : option EarthquakeData * list Effect :=
  match DOM.documentQuerySelector "gempa" xmlDoc with
  | None => (None, [ConsoleError "Error parsing XML:"])
  | Some gempaElement =>
      (Some {| Tanggal := getData gempaElement "Tanggal";
               Jam := getData gempaElement "Jam";
               DateTime := getData gempaElement "DateTime";
               coordinates := getData gempaElement "coordinates";
               Lintang := getData gempaElement "Lintang";
               Bujur := getData gempaElement "Bujur";
               Magnitude := getData gempaElement "Magnitude";
               Kedalaman := getData gempaElement "Kedalaman";
               Wilayah := getData gempaElement "Wilayah";
               Potensi := getData gempaElement "Potensi";
               Dirasakan := getData gempaElement "Dirasakan";
               Shakemap := getData gempaElement "Shakemap" |}, [])
  end.

(** ** Component state (lines 40-54) *)

Inductive Tab : Type := TabLatest | TabRecent | TabFelt.

(** [Date] values are milliseconds since the epoch. *)
Definition Date : Type := N.

Record AppState : Type := mkAppState {
  latestEarthquake : option EarthquakeData;
  recentEarthquakes : list RecentEarthquake;
  feltEarthquakes : list RecentEarthquake;
  loading : bool;
  error : option string;
  lastUpdated : option Date;
  isOnline : bool;
  activeTab : Tab;
  darkMode : bool;
  autoUpdate : bool;
  hasNewData : bool;
  lastDataHash : string
}.

(** The state right after mounting; [online] is [navigator.onLine] and
    [dark] the saved theme. *)
Definition initialState (online dark : bool) : AppState :=
  {| latestEarthquake := None;
     recentEarthquakes := [];
     feltEarthquakes := [];
     loading := true;
     error := None;
     lastUpdated := None;
     isOnline := online;
     activeTab := TabLatest;
     darkMode := dark;
     autoUpdate := true;
     hasNewData := false;
     lastDataHash := "" |}.

Definition setLatestEarthquake (v : option EarthquakeData) (st : AppState) : AppState :=
  mkAppState v (recentEarthquakes st) (feltEarthquakes st) (loading st) (error st)
    (lastUpdated st) (isOnline st) (activeTab st) (darkMode st) (autoUpdate st)
    (hasNewData st) (lastDataHash st).

Definition setRecentEarthquakes (v : list RecentEarthquake) (st : AppState) : AppState :=
  mkAppState (latestEarthquake st) v (feltEarthquakes st) (loading st) (error st)
    (lastUpdated st) (isOnline st) (activeTab st) (darkMode st) (autoUpdate st)
    (hasNewData st) (lastDataHash st).

Definition setFeltEarthquakes (v : list RecentEarthquake) (st : AppState) : AppState :=
  mkAppState (latestEarthquake st) (recentEarthquakes st) v (loading st) (error st)
    (lastUpdated st) (isOnline st) (activeTab st) (darkMode st) (autoUpdate st)
    (hasNewData st) (lastDataHash st).

Definition setLoading (v : bool) (st : AppState) : AppState :=
  mkAppState (latestEarthquake st) (recentEarthquakes st) (feltEarthquakes st) v (error st)
    (lastUpdated st) (isOnline st) (activeTab st) (darkMode st) (autoUpdate st)
    (hasNewData st) (lastDataHash st).

Definition setError (v : option string) (st : AppState) : AppState :=
  mkAppState (latestEarthquake st) (recentEarthquakes st) (feltEarthquakes st) (loading st) v
    (lastUpdated st) (isOnline st) (activeTab st) (darkMode st) (autoUpdate st)
    (hasNewData st) (lastDataHash st).

Definition setLastUpdated (v : option Date) (st : AppState) : AppState :=
  mkAppState (latestEarthquake st) (recentEarthquakes st) (feltEarthquakes st) (loading st)
    (error st) v (isOnline st) (activeTab st) (darkMode st) (autoUpdate st)
    (hasNewData st) (lastDataHash st).

Definition setHasNewData (v : bool) (st : AppState) : AppState :=
  mkAppState (latestEarthquake st) (recentEarthquakes st) (feltEarthquakes st) (loading st)
    (error st) (lastUpdated st) (isOnline st) (activeTab st) (darkMode st) (autoUpdate st)
    v (lastDataHash st).

Definition setLastDataHash (v : string) (st : AppState) : AppState :=
  mkAppState (latestEarthquake st) (recentEarthquakes st) (feltEarthquakes st) (loading st)
    (error st) (lastUpdated st) (isOnline st) (activeTab st) (darkMode st) (autoUpdate st)
    (hasNewData st) v.

Definition setIsOnline (v : bool) (st : AppState) : AppState :=
  mkAppState (latestEarthquake st) (recentEarthquakes st) (feltEarthquakes st) (loading st)
    (error st) (lastUpdated st) v (activeTab st) (darkMode st) (autoUpdate st)
    (hasNewData st) (lastDataHash st).

Definition setActiveTab (v : Tab) (st : AppState) : AppState :=
  mkAppState (latestEarthquake st) (recentEarthquakes st) (feltEarthquakes st) (loading st)
    (error st) (lastUpdated st) (isOnline st) v (darkMode st) (autoUpdate st)
    (hasNewData st) (lastDataHash st).

Definition setDarkMode (v : bool) (st : AppState) : AppState :=
  mkAppState (latestEarthquake st) (recentEarthquakes st) (feltEarthquakes st) (loading st)
    (error st) (lastUpdated st) (isOnline st) (activeTab st) v (autoUpdate st)
    (hasNewData st) (lastDataHash st).

Definition setAutoUpdate (v : bool) (st : AppState) : AppState :=
  mkAppState (latestEarthquake st) (recentEarthquakes st) (feltEarthquakes st) (loading st)
    (error st) (lastUpdated st) (isOnline st) (activeTab st) (darkMode st) v
    (hasNewData st) (lastDataHash st).

(** What the presentation layer reads as the data of the last accepted
    cycle. *)
Record Snapshot : Type := mkSnapshot {
  snap_latest : option EarthquakeData;
  snap_recent : list RecentEarthquake;
  snap_felt : list RecentEarthquake;
  snap_signature : string;
  snap_hasNewData : bool
}.

Definition snapshot (st : AppState) : Snapshot :=
  {| snap_latest := latestEarthquake st;
     snap_recent := recentEarthquakes st;
     snap_felt := feltEarthquakes st;
     snap_signature := lastDataHash st;
     snap_hasNewData := hasNewData st |}.

(** ** What a refresh cycle meets outside the component *)

(** The outcome of one [fetch] call.  [Rejected]: the promise rejects
    (transport failure).  [Replied ok body]: a response arrived, [ok] is
    its [ok] flag, and [body] is the decoded body, [None] when reading or
    decoding it rejects ([text()], [json()]). *)
Inductive Response (A : Type) : Type :=
| Rejected
| Replied (ok : bool) (body : option A).

Arguments Rejected {A}.
Arguments Replied {A} ok body.

Inductive Permission : Type := PermissionDefault | PermissionGranted | PermissionDenied.

Record World : Type := mkWorld {
  latestResponse : Response DOM.Node;
  recentResponse : Response RecentEarthquakeData;
  feltResponse : Response RecentEarthquakeData;
  (** [None]: there is no [Notification] in [window]. *)
  notification : option Permission;
  now : Date
}.

(** ** One refresh cycle (lines 110-196) *)

(** The two state values the callback closes over (the dependency list of
    line 196): what [lastDataHash] and [hasNewData] were in the render that
    created the callback.  A call still running while another cycle
    commits keeps the values it was created with. *)
Record Captured : Type := mkCaptured {
  seenHash : string;
  seenFlag : bool
}.

(** The callback of the render that shows [st]. *)
Definition capture (st : AppState) : Captured :=
  {| seenHash := lastDataHash st; seenFlag := hasNewData st |}.

(** Lines 118-128.  [None] stands for an exception, which the outer
    [catch] receives. *)
Definition fetchLatest (r : Response DOM.Node) : option DOM.Node :=
  match r with
  | Rejected => None
  | Replied ok body => if ok then body else None
  end.

(** [recentData.Infogempa?.gempa?.slice(0, 15) || []] *)
Definition sliceFeed (d : RecentEarthquakeData) : list RecentEarthquake :=
  match Infogempa d with
  | Some i =>
      match gempa i with
      | Some l => firstn 15 l
      | None => []
      end
  | None => []
  end.

(** Lines 135-145 and 148-158: a list feed never throws past its own
    [try]. *)
Definition fetchList (warning : string) (r : Response RecentEarthquakeData)
  : list RecentEarthquake * list Effect :=
  match r with
  | Rejected => ([], [ConsoleWarn warning])
  | Replied false _ => ([], [])
  | Replied true None => ([], [ConsoleWarn warning])
  | Replied true (Some d) => (sliceFeed d, [])
  end.

(** Line 162: [lastDataHash && newHash !== lastDataHash && silent] *)
Definition dataChanged (lastDataHash newHash : string) (silent : bool) : bool :=
  match lastDataHash with EmptyString => false | String _ _ => true end
  && negb (String.eqb newHash lastDataHash) && silent.

(** Line 165: [parsedLatest && parseFloat(parsedLatest.Magnitude) >= 6.0] *)
Definition isSignificant (parsedLatest : option EarthquakeData) : bool :=
  match parsedLatest with
  | Some l => JSNumber.ge (JSNumber.parseFloat (Magnitude l)) (JSNumber.ofZ 6)
  | None => false
  end.

(** Line 166: ['Notification' in window && Notification.permission === 'granted'] *)
Definition notificationGranted (api : option Permission) : bool :=
  match api with
  | Some PermissionGranted => true
  | _ => false
  end.

Definition strongQuakeNotification (l : EarthquakeData) : Effect :=
  ShowNotification "🚨 Gempa Kuat Terdeteksi!"
    (js "M" ++ Magnitude l ++ js " - " ++ Wilayah l) "/favicon.ico".

(** Lines 162-185, once [newHash] has been computed at line 161.  The
    tests read the values the callback closed over ([seen]); the setters
    write into the state of the moment ([st]). *)
Definition checkAndCommit (seen : Captured) (silent : bool) (w : World)
    (parsedLatest : option EarthquakeData) (newRecent newFelt : list RecentEarthquake)
    (newHash : string) (st : AppState)
  : AppState * list Effect :=
  let '(st1, shown) :=
    if dataChanged (seenHash seen) newHash silent then
      (setHasNewData true st,
       match parsedLatest with
       | Some l =>
           if JSNumber.ge (JSNumber.parseFloat (Magnitude l)) (JSNumber.ofZ 6) then
             if notificationGranted (notification w) then [strongQuakeNotification l]
             else []
           else []
       | None => []
       end)
    else (st, []) in
  let st2 :=
    match parsedLatest with
    | Some l => setLatestEarthquake (Some l) st1
    | None => st1
    end in
  let st3 := setRecentEarthquakes newRecent st2 in
  let st4 := setFeltEarthquakes newFelt st3 in
  let st5 := setLastDataHash newHash st4 in
  let st6 := setLastUpdated (Some (now w)) st5 in
  let st7 := if seenFlag seen && negb silent then setHasNewData false st6 else st6 in
  (st7, shown).

Definition fetchErrorMessage : string :=
  "Gagal mengambil data gempa. Silakan coba lagi.".

Definition fetchErrorLog : string := "Error fetching earthquake data:".

Definition recentWarning : string := "Failed to fetch recent earthquakes:".
Definition feltWarning : string := "Failed to fetch felt earthquakes:".

(** Lines 112-115, run when the call is made. *)
Definition cycleStart (silent : bool) (st : AppState) : AppState :=
  if silent then st else setError None (setLoading true st).

(** Lines 186-195: the [catch] and the [finally] after an exception. *)
Definition cycleCaught (silent : bool) (st : AppState) : AppState :=
  if silent then st else setLoading false (setError (Some fetchErrorMessage) st).

(** Lines 116-195, run when the responses have arrived, on the state of
    that moment. *)
Definition cycleFinish (seen : Captured) (silent : bool) (w : World) (st : AppState)
  : AppState * list Effect :=
  match fetchLatest (latestResponse w) with
  | None => (cycleCaught silent st, [ConsoleError fetchErrorLog])
  | Some xmlDoc =>
      let '(parsedLatest, e1) := parseXMLData xmlDoc in
      let '(newRecent, e2) := fetchList recentWarning (recentResponse w) in
      let '(newFelt, e3) := fetchList feltWarning (feltResponse w) in
      match generateDataHash parsedLatest newRecent newFelt with
      | None => (cycleCaught silent st, e1 ++ e2 ++ e3 ++ [ConsoleError fetchErrorLog])
      | Some newHash =>
          let '(st1, e4) :=
            checkAndCommit seen silent w parsedLatest newRecent newFelt newHash st in
          (* finally *)
          let st2 := if silent then st1 else setLoading false st1 in
          (st2, e1 ++ e2 ++ e3 ++ e4)
      end
  end.

(** One call of the callback created with [seen], with no other state
    update between its first and its last line. *)
Definition fetchAllEarthquakeData (seen : Captured) (silent : bool) (w : World)
    (st : AppState) : AppState * list Effect :=
  cycleFinish seen silent w (cycleStart silent st).

(** The call made with the callback of the render that shows [st]: what
    the mount effect, a timer tick or a button does when no other call is
    under way. *)
Definition freshCycle (st : AppState) (silent : bool) (w : World)
  : AppState * list Effect :=
  fetchAllEarthquakeData (capture st) silent w st.

(** The states a session can be in: the mounted state followed by any
    number of calls that start (lines 112-115), calls that finish, with
    whatever values their callback closed over, and changes of the
    switches that the cycle does not read. *)
Inductive reachable : AppState -> Prop :=
| reachable_initial : forall online dark, reachable (initialState online dark)
| reachable_start : forall st silent,
    reachable st -> reachable (cycleStart silent st)
| reachable_finish : forall st seen silent w,
    reachable st -> reachable (fst (cycleFinish seen silent w st))
| reachable_online : forall st v, reachable st -> reachable (setIsOnline v st)
| reachable_tab : forall st v, reachable st -> reachable (setActiveTab v st)
| reachable_theme : forall st v, reachable st -> reachable (setDarkMode v st)
| reachable_toggle : forall st v, reachable st -> reachable (setAutoUpdate v st).

(** ** The auto-update effect (lines 205-227) and its toggle (line 429) *)

Module Scheduler.

Inductive Command : Type :=
| CallFetch (silent : bool)
| SetInterval (milliseconds : N)
| ClearInterval
| AddNetworkListeners
| RemoveNetworkListeners.

(** [interval] is the variable of the effect's closure: [true] once
    [setInterval] has been called by the current run of the effect. *)
Record t : Type := mk {
  autoUpdateFlag : bool;
  interval : bool
}.

(** The body of the effect. *)
Definition runEffect (autoUpdate : bool) : t * list Command :=
  (mk autoUpdate autoUpdate,
   ([CallFetch false] ++
    (if autoUpdate then [SetInterval 30000] else []) ++
    [AddNetworkListeners])%list).

(** The function the effect returns. *)
Definition cleanup (s : t) : list Command :=
  ((if interval s then [ClearInterval] else []) ++ [RemoveNetworkListeners])%list.

Definition mount : t * list Command := runEffect true.

(** [setAutoUpdate(!autoUpdate)]: [autoUpdate] is a dependency of the
    effect, so the previous run is cleaned up and the effect runs again. *)
Definition toggleAutoUpdate (s : t) : t * list Command :=
  let '(s', cs) := runEffect (negb (autoUpdateFlag s)) in
  (s', (cleanup s ++ cs)%list).

(** The callback is re-created when [lastDataHash] or [hasNewData]
    changes, and it is a dependency of the effect too. *)
Definition callbackChanged (s : t) : t * list Command :=
  let '(s', cs) := runEffect (autoUpdateFlag s) in
  (s', (cleanup s ++ cs)%list).

(** Thirty seconds have passed since the timer was armed or last fired. *)
Definition tick (s : t) : list Command :=
  if interval s then [CallFetch true] else [].

Definition isFetch (c : Command) : bool :=
  match c with CallFetch _ => true | _ => false end.

End Scheduler.

(** * Vocabulary of the statements *)

(** "The magnitude string parses to a number that is at least [z]", said
    without the comparison operator of the code. *)
Definition parsesAtLeast (magnitude : jsstring) (z : Z) : Prop :=
  match JSNumber.parseFloat magnitude with
  | JSNumber.NaN => False
  | JSNumber.Finite q => (inject_Z z <= q)%Q
  | JSNumber.Infinity negative => negative = false
  end.

(** "The magnitude string parses to a number below [z]". *)
Definition parsesBelow (magnitude : jsstring) (z : Z) : Prop :=
  match JSNumber.parseFloat magnitude with
  | JSNumber.NaN => False
  | JSNumber.Finite q => (q < inject_Z z)%Q
  | JSNumber.Infinity negative => negative = true
  end.

(** The values a cycle computes once the latest-event document [doc] has
    arrived. *)
Definition candidateLatest (doc : DOM.Node) : option EarthquakeData :=
  fst (parseXMLData doc).
Definition candidateRecent (w : World) : list RecentEarthquake :=
  fst (fetchList recentWarning (recentResponse w)).
Definition candidateFelt (w : World) : list RecentEarthquake :=
  fst (fetchList feltWarning (feltResponse w)).
Definition candidateHash (w : World) (doc : DOM.Node) : option string :=
  generateDataHash (candidateLatest doc) (candidateRecent w) (candidateFelt w).

(** The signature a cycle that meets [w] arrives at: [None] when the
    latest fetch throws or [btoa] does. *)
Definition cycleHash (w : World) : option string :=
  match fetchLatest (latestResponse w) with
  | Some doc => candidateHash w doc
  | None => None
  end.

(** A list fetch that did not deliver a decoded document. *)
Definition listFetchFailed (r : Response RecentEarthquakeData) : bool :=
  match r with
  | Replied true (Some _) => false
  | _ => true
  end.

(** A timestamp without a comma. *)
Definition commaFree (s : jsstring) : bool := negb (JSString.includesChar comma s).

Definition commaFreeTimestamps (l : list RecentEarthquake) : Prop :=
  Forall (fun e => commaFree (re_DateTime e) = true) l.

(** A string without a code unit above 255. *)
Definition isLatin (s : jsstring) : bool :=
  forallb (fun c => match c with JSString.Latin _ => true | JSString.Above _ => false end) s.

Definition latinTimestamps (l : list RecentEarthquake) : Prop :=
  Forall (fun e => isLatin (re_DateTime e) = true) l.

(** Readers used only to show that the encoders lose nothing. *)

Definition hexValue (c : JSString.char) : option N :=
  match c with
  | JSString.Latin a =>
      option_map N.of_nat (String.index 0 (String a EmptyString) "0123456789abcdef")
  | JSString.Above _ => None
  end.

(** The code unit a quoted JSON string starts with, when it is not half
    of a surrogate pair, and what follows it; [None] at the closing
    quote. *)
Definition unescapeHead (s : jsstring) : option (JSString.char * jsstring) :=
  match s with
  | [] => None
  | JSString.Latin c :: r =>
      if Ascii.eqb c "034"%char then None
      else if Ascii.eqb c "092"%char then
        match r with
        | JSString.Latin "b"%char :: r' => Some (JSString.Latin "008"%char, r')
        | JSString.Latin "t"%char :: r' => Some (JSString.Latin "009"%char, r')
        | JSString.Latin "n"%char :: r' => Some (JSString.Latin "010"%char, r')
        | JSString.Latin "f"%char :: r' => Some (JSString.Latin "012"%char, r')
        | JSString.Latin "r"%char :: r' => Some (JSString.Latin "013"%char, r')
        | JSString.Latin "u"%char :: h1 :: h2 :: h3 :: h4 :: r' =>
            match hexValue h1, hexValue h2, hexValue h3, hexValue h4 with
            | Some a, Some b, Some c, Some d =>
                Some (JSString.ofCode (4096 * a + 256 * b + 16 * c + d), r')
            | _, _, _, _ => None
            end
        | x :: r' => Some (x, r')
        | [] => None
        end
      else Some (JSString.Latin c, r)
  | c :: r => Some (c, r)
  end.

Definition allSextets : list Base64.sextet :=
  let bs := [false; true] in
  flat_map (fun b5 => flat_map (fun b4 => flat_map (fun b3 => flat_map (fun b2 =>
  flat_map (fun b1 => map (fun b0 => (b5, b4, b3, b2, b1, b0)) bs) bs) bs) bs) bs) bs.

Definition undigit (c : ascii) : option Base64.sextet :=
  find (fun x => Ascii.eqb (Base64.digit x) c) allSextets.

(** Sample payloads used to exercise the statements. *)

Definition feedOf (l : list RecentEarthquake) : RecentEarthquakeData :=
  {| Infogempa := Some {| gempa := Some l |} |}.

Definition sampleQuake (dateTime : jsstring) : RecentEarthquake :=
  {| re_Tanggal := ""; re_Jam := ""; re_DateTime := dateTime; re_Coordinates := "";
     re_Lintang := ""; re_Bujur := ""; re_Magnitude := "5.1"; re_Kedalaman := "";
     re_Wilayah := ""; re_Potensi := ""; re_Dirasakan := None |}.

Definition twentyQuakes : list RecentEarthquake :=
  map (fun t : string => sampleQuake t)
    ["t01"; "t02"; "t03"; "t04"; "t05"; "t06"; "t07"; "t08"; "t09"; "t10";
     "t11"; "t12"; "t13"; "t14"; "t15"; "t16"; "t17"; "t18"; "t19"; "t20"].

Definition sampleDocument (dateTime magnitude : jsstring) : DOM.Node :=
  DOM.Element "Infogempa"
    [DOM.Element "gempa"
       [DOM.Element "Tanggal" [DOM.Text "19 Jul 2025"];
        DOM.Element "Jam" [DOM.Text "18:25:55 WIB"];
        DOM.Element "DateTime" [DOM.Text dateTime];
        DOM.Element "point" [DOM.Element "coordinates" [DOM.Text "-8.15,107.43"]];
        DOM.Element "Magnitude" [DOM.Text (js " " ++ magnitude ++ js " ")];
        DOM.Element "Wilayah" [DOM.Text "Pusat gempa berada di laut"];
        DOM.Element "Potensi" [DOM.Text "Tidak berpotensi tsunami"]]].

Definition rootlessDocument : DOM.Node :=
  DOM.Element "Infogempa" [DOM.Element "Tanggal" [DOM.Text "19 Jul 2025"]].

Definition sampleWorld (latest : Response DOM.Node)
    (recent felt : Response RecentEarthquakeData) : World :=
  {| latestResponse := latest; recentResponse := recent; feltResponse := felt;
     notification := Some PermissionGranted; now := 1000%N |}.

(** The state after a first, successful foreground cycle. *)
Definition settledState : AppState :=
  fst (freshCycle (initialState true false) false
         (sampleWorld (Replied true (Some (sampleDocument "2025-07-19T11:25:55+00:00" "5.4")))
            (Replied true (Some (feedOf [sampleQuake "r1"; sampleQuake "r2"])))
            (Replied true (Some (feedOf [sampleQuake "f1"]))))).

(** A timestamp with the code unit U+2212, the minus sign of typography,
    where the feed writes a hyphen. *)
Definition wideTimestamp : jsstring :=
  js "2025-07-19T11:25:55" ++ [JSString.ofCode 8722] ++ js "07:00".


(** * Display helpers and the component around the cycle *)

(** ** [getShakemapUrl] (lines 285-288) *)

Definition shakemapBase : string := "https://data.bmkg.go.id/DataMKG/TEWS/".

Definition getShakemapUrl (shakemap : jsstring) : option jsstring :=
  if JSString.truthy shakemap then Some (js shakemapBase ++ shakemap) else None.

(** ** [parseCoordinates] (lines 290-297) *)

(** [s.split(c)] for a one-character separator: the pieces between the
    separators, in order; there is always at least one piece. *)
Fixpoint splitChar (sep : JSString.char) (s : jsstring) : list jsstring :=
  match s with
  | [] => [[]]
  | c :: r =>
      if JSString.char_eqb c sep then [] :: splitChar sep r
      else
        match splitChar sep r with
        | h :: t => (c :: h) :: t
        | [] => [[c]]
        end
  end.

Record LatLng : Type := mkLatLng {
  lat : jsstring;
  lng : jsstring
}.

(** [coords[i]?.trim() || ''] *)
Definition coordinateAt (coords : list jsstring) (i : nat) : jsstring :=
  match nth_error coords i with
  | Some piece => JSString.orElse (JSString.trim piece) ""
  | None => ""
  end.

Definition parseCoordinates (coordinates : jsstring) : LatLng :=
  if negb (JSString.truthy coordinates) then {| lat := ""; lng := "" |}
  else
    let coords := splitChar comma coordinates in
    {| lat := coordinateAt coords 0; lng := coordinateAt coords 1 |}.

(** The coordinates a list card shows (line 332):
    [coordinates.lat || earthquake.Lintang] and
    [coordinates.lng || earthquake.Bujur], with [coordinates] as computed
    at line 302. *)
Definition cardCoordinates (earthquake : RecentEarthquake) : jsstring * jsstring :=
  let coordinates := parseCoordinates (re_Coordinates earthquake) in
  (JSString.orElse (lat coordinates) (re_Lintang earthquake),
   JSString.orElse (lng coordinates) (re_Bujur earthquake)).

(** ** The callback and the effect that depends on it (lines 196, 227) *)

(** [useCallback(..., [lastDataHash, hasNewData])]: the callback is a new
    function exactly when one of the two values changed between renders. *)
Definition callbackDepsChanged (before after : AppState) : bool :=
  negb (String.eqb (lastDataHash before) (lastDataHash after)) ||
  negb (Bool.eqb (hasNewData before) (hasNewData after)).

(** What can happen to the mounted effect. *)
Inductive SchedulerEvent : Type :=
| ToggleClicked
| CallbackReplaced
| TimerFired.

Definition schedulerStep (s : Scheduler.t) (e : SchedulerEvent)
  : Scheduler.t * list Scheduler.Command :=
  match e with
  | ToggleClicked => Scheduler.toggleAutoUpdate s
  | CallbackReplaced => Scheduler.callbackChanged s
  | TimerFired => (s, Scheduler.tick s)
  end.

(** The scheduler after mounting and a sequence of events, with every
    command issued so far, oldest first. *)
Fixpoint schedulerRun (s : Scheduler.t) (issued : list Scheduler.Command)
    (events : list SchedulerEvent) : Scheduler.t * list Scheduler.Command :=
  match events with
  | [] => (s, issued)
  | e :: rest =>
      let '(s', cs) := schedulerStep s e in
      schedulerRun s' (issued ++ cs)%list rest
  end.

Definition schedulerTrace (events : list SchedulerEvent)
  : Scheduler.t * list Scheduler.Command :=
  schedulerRun (fst Scheduler.mount) (snd Scheduler.mount) events.

(** Timers armed and not yet cleared, and listener pairs added and not yet
    removed, after a sequence of commands. *)
Fixpoint liveTimers (commands : list Scheduler.Command) : Z :=
  match commands with
  | [] => 0%Z
  | Scheduler.SetInterval _ :: r => (liveTimers r + 1)%Z
  | Scheduler.ClearInterval :: r => (liveTimers r - 1)%Z
  | _ :: r => liveTimers r
  end.

Fixpoint liveListeners (commands : list Scheduler.Command) : Z :=
  match commands with
  | [] => 0%Z
  | Scheduler.AddNetworkListeners :: r => (liveListeners r + 1)%Z
  | Scheduler.RemoveNetworkListeners :: r => (liveListeners r - 1)%Z
  | _ :: r => liveListeners r
  end.

(** What holds between events: the closure's [interval] is set exactly
    when auto-update is on, one timer is live exactly then, and one pair
    of listeners is registered. *)
Definition schedulerBalanced (s : Scheduler.t) (issued : list Scheduler.Command) : Prop :=
  Scheduler.interval s = Scheduler.autoUpdateFlag s /\
  liveTimers issued = (if Scheduler.autoUpdateFlag s then 1 else 0)%Z /\
  liveListeners issued = 1%Z.

(** ** Which screen is rendered (lines 352 and 376) *)

Inductive Screen : Type := LoadingScreen | ErrorScreen | MainScreen.

Definition isNull {A : Type} (x : option A) : bool :=
  match x with Some _ => false | None => true end.

(** [if (loading && !latestEarthquake) ...; if (error && !latestEarthquake) ...] *)
Definition screen (st : AppState) : Screen :=
  if loading st && isNull (latestEarthquake st) then LoadingScreen
  else if match error st with
          | Some (String _ _) => true
          | _ => false
          end && isNull (latestEarthquake st) then ErrorScreen
  else MainScreen.

(** ** The tsunami badge (line 616) *)

(** The badge is modelled on texts without a code unit above 255, given
    as a [string].  [toLowerCase] on the code units 0..255: A-Z and the
    accented capitals move up by 32. *)
Definition toLowerChar (c : ascii) : ascii :=
  let n := N_of_ascii c in
  if ((65 <=? n) && (n <=? 90) || (192 <=? n) && (n <=? 214) ||
      (216 <=? n) && (n <=? 222))%N
  then ascii_of_N (n + 32) else c.

Fixpoint toLowerCase (s : string) : string :=
  match s with
  | EmptyString => EmptyString
  | String c r => String (toLowerChar c) (toLowerCase r)
  end.

(** [s.includes(sub)] *)
Fixpoint includes (sub s : string) : bool :=
  String.prefix sub s ||
  match s with
  | EmptyString => false
  | String _ r => includes sub r
  end.

(** [latestEarthquake.Potensi.toLowerCase().includes('tidak')]: the badge
    is green when this holds and orange otherwise. *)
Definition noTsunamiBadge (potensi : string) : bool :=
  includes "tidak" (toLowerCase potensi).

(** ** More vocabulary *)

(** All characters of [s] are white space. *)
Fixpoint blank (s : jsstring) : bool :=
  match s with
  | [] => true
  | c :: r => JSString.isWhiteSpace c && blank r
  end.

Definition fieldsOf (l : EarthquakeData) : list jsstring :=
  [Tanggal l; Jam l; DateTime l; coordinates l; Lintang l; Bujur l;
   Magnitude l; Kedalaman l; Wilayah l; Potensi l; Dirasakan l; Shakemap l].

Definition fieldTags : list string :=
  ["Tanggal"; "Jam"; "DateTime"; "coordinates"; "Lintang"; "Bujur";
   "Magnitude"; "Kedalaman"; "Wilayah"; "Potensi"; "Dirasakan"; "Shakemap"].

Definition notificationsOf (effects : list Effect) : list Effect :=
  filter isNotification effects.

(** Whether a string begins, or ends, with white space. *)
Definition startsWithSpace (s : jsstring) : bool :=
  match s with
  | [] => false
  | c :: _ => JSString.isWhiteSpace c
  end.

Fixpoint endsWithSpace (s : jsstring) : bool :=
  match s with
  | [] => false
  | [c] => JSString.isWhiteSpace c
  | _ :: r => endsWithSpace r
  end.

(** Whether an element named [tag] occurs in the tree, at any depth. *)
Fixpoint containsElement (tag : string) (n : DOM.Node) : bool :=
  match n with
  | DOM.Text _ => false
  | DOM.Element t cs =>
      String.eqb t tag ||
      (fix any (l : list DOM.Node) : bool :=
         match l with
         | [] => false
         | c :: r => containsElement tag c || any r
         end) cs
  end.


(** What [v] is, as a fraction in lowest terms. *)
Definition exactly (v : JSNumber.t) (numerator : Z) (denominator : positive) : bool :=
  match v with
  | JSNumber.Finite q => Qeq_bool q (numerator # denominator)
  | _ => false
  end.

(** The text [JSON.stringify] produces, cut at the three values. *)
Definition beforeLatest : jsstring :=
  js "{" ++ [JSON.dquote] ++ js "latest" ++ [JSON.dquote] ++ js ":" ++ [JSON.dquote].
Definition beforeRecent : jsstring :=
  js "," ++ [JSON.dquote] ++ js "recent" ++ [JSON.dquote] ++ js ":" ++ [JSON.dquote].
Definition beforeFelt : jsstring :=
  js "," ++ [JSON.dquote] ++ js "felt" ++ [JSON.dquote] ++ js ":" ++ [JSON.dquote].


(** ** The effect after a render (lines 196 and 227)

    The effect depends on the callback, and the callback on [lastDataHash]
    and [hasNewData]: after a render in which one of the two changed, the
    effect is cleaned up and runs again, without anybody asking. *)
Definition afterRender (before after : AppState) (s : Scheduler.t)
  : Scheduler.t * list Scheduler.Command :=
  if callbackDepsChanged before after then Scheduler.callbackChanged s else (s, []).

(** * Properties *)

(** ** Comparisons and [parseFloat] *)

Lemma lt_NaN_l (v : JSNumber.t) : JSNumber.lt JSNumber.NaN v = false.
Proof. reflexivity. Qed.

Lemma ge_NaN_l (v : JSNumber.t) : JSNumber.ge JSNumber.NaN v = false.
Proof. reflexivity. Qed.

Lemma ge_parsesAtLeast (magnitude : jsstring) (z : Z) :
  JSNumber.ge (JSNumber.parseFloat magnitude) (JSNumber.ofZ z) = true <->
  parsesAtLeast magnitude z.
Proof.
  unfold parsesAtLeast.
  destruct (JSNumber.parseFloat magnitude) as [|q|n]; simpl.
  - split; [discriminate | contradiction].
  - apply Qle_bool_iff.
  - destruct n; simpl; split; congruence.
Qed.

Example parseFloat_decimal :
  exactly (JSNumber.parseFloat "-6.25e1") (-125) 2 = true /\
  exactly (JSNumber.parseFloat "  7.0 SR") 7 1 = true /\
  exactly (JSNumber.parseFloat ".5") 1 2 = true /\
  exactly (JSNumber.parseFloat "1.e2x") 100 1 = true.
Proof. repeat split. Qed.

(** Binary64 rounding: 0.1 and 6.2 are not binary fractions, 2^53 + 1 is a
    tie that goes to the even neighbour, and a literal within half a unit
    in the last place of 5 or 6 is 5 or 6. *)
Example parseFloat_rounds :
  exactly (JSNumber.parseFloat "0.1") 3602879701896397 (2 ^ 55) = true /\
  exactly (JSNumber.parseFloat "6.2") 6980579422424269 (2 ^ 50) = true /\
  exactly (JSNumber.parseFloat "9007199254740993") 9007199254740992 1 = true /\
  exactly (JSNumber.parseFloat "9007199254740995") 9007199254740996 1 = true /\
  exactly (JSNumber.parseFloat "4.9999999999999999") 5 1 = true /\
  exactly (JSNumber.parseFloat "5.9999999999999999") 6 1 = true /\
  exactly (JSNumber.parseFloat "5.999999999999999") 6755399441055743 (2 ^ 50) = true.
Proof. vm_compute. repeat split. Qed.

Example parseFloat_range :
  JSNumber.parseFloat "1e400" = JSNumber.Infinity false /\
  JSNumber.parseFloat "1.7976931348623159e308" = JSNumber.Infinity false /\
  exactly (JSNumber.parseFloat "1.7976931348623157e308") ((2 ^ 53 - 1) * 2 ^ 971) 1 = true /\
  exactly (JSNumber.parseFloat "5e-324") 1 (2 ^ 1074) = true /\
  exactly (JSNumber.parseFloat "2.4703282292062327e-324") 0 1 = true /\
  exactly (JSNumber.parseFloat "1e-400") 0 1 = true /\
  JSNumber.parseFloat "-Infinity and beyond" = JSNumber.Infinity true.
Proof. vm_compute. repeat split. Qed.

Example parseFloat_not_a_number :
  JSNumber.parseFloat "" = JSNumber.NaN /\
  JSNumber.parseFloat "abc" = JSNumber.NaN /\
  JSNumber.parseFloat "." = JSNumber.NaN /\
  JSNumber.parseFloat "-" = JSNumber.NaN /\
  JSNumber.parseFloat [JSString.ofCode 1636] = JSNumber.NaN.
Proof. repeat split. Qed.

Example getMagnitudeInfo_buckets :
  map (fun m : string => classification (getMagnitudeInfo false m))
      ["4.9"; "5.0"; "5.9"; "6.0"; "7.3"; "4.9999999999999999"; "5.9999999999999999"] =
  ["Gempa Ringan"; "Gempa Sedang"; "Gempa Sedang"; "Gempa Kuat"; "Gempa Kuat";
   "Gempa Sedang"; "Gempa Kuat"].
Proof. vm_compute. reflexivity. Qed.

Example btoa_samples :
  btoa "Man" = Some "TWFu" /\ btoa "Ma" = Some "TWE=" /\ btoa "M" = Some "TQ==" /\
  btoa [JSString.ofCode 255] = Some "/w==" /\
  btoa (js "M" ++ [JSString.ofCode 256]) = None.
Proof. repeat split. Qed.

Example escape_samples :
  JSON.escape (JSString.ofCode 10 :: JSON.dquote :: JSString.ofCode 1 :: js "a\b") =
    JSON.backslash :: js "n" ++ JSON.backslash :: JSON.dquote :: js "\u0001a\\b" /\
  JSON.escape [JSString.ofCode 55357; JSString.ofCode 56832] =
    [JSString.ofCode 55357; JSString.ofCode 56832] /\
  JSON.escape [JSString.ofCode 56832; JSString.ofCode 55357] = js "\ude00\ud83d" /\
  JSON.escape [JSString.ofCode 8722] = [JSString.ofCode 8722].
Proof. repeat split. Qed.

Example generateDataHash_empty :
  generateDataHash None [] [] = Some "eyJsYXRlc3QiOiIiLCJyZWNlbnQiOiIiLCJmZWx0IjoiIn0=".
Proof. reflexivity. Qed.

Example generateDataHash_throws :
  generateDataHash None [sampleQuake wideTimestamp] [] = None /\
  generateDataHash None [sampleQuake [JSString.ofCode 56832]] [] <> None.
Proof. split; [reflexivity | discriminate]. Qed.

Example parseXMLData_sample :
  let parsed := fst (parseXMLData (sampleDocument "2025-07-19T11:25:55+00:00" "6.1")) in
  option_map Magnitude parsed = Some (js "6.1") /\
  option_map coordinates parsed = Some (js "-8.15,107.43") /\
  option_map Dirasakan parsed = Some (js "") /\
  fst (parseXMLData rootlessDocument) = None.
Proof. repeat split. Qed.

(** ** C1 *)

(** C1.  The claim asks for 'Gempa Ringan' on a magnitude that does not
    parse.  The code compares [NaN] with [<] twice, both comparisons are
    false, and the last branch is taken: every unparsable magnitude is
    classified 'Gempa Kuat', in either theme. *)
Theorem getMagnitudeInfo_unparsable (darkMode : bool) (magnitude : jsstring) :
  JSNumber.parseFloat magnitude = JSNumber.NaN ->
  classification (getMagnitudeInfo darkMode magnitude) = "Gempa Kuat" /\
  classification (getMagnitudeInfo darkMode magnitude) <> "Gempa Ringan".
Proof.
  intros H. unfold getMagnitudeInfo. rewrite H. simpl.
  split; [reflexivity | discriminate].
Qed.

Lemma getMagnitudeInfo_unparsable_witness :
  JSNumber.parseFloat "" = JSNumber.NaN /\
  classification (getMagnitudeInfo false "") = "Gempa Kuat" /\
  classification (getMagnitudeInfo false "") <> "Gempa Ringan".
Proof.
  split; [reflexivity | apply (getMagnitudeInfo_unparsable false ""); reflexivity].
Defined.

(** The sibling use of the same conversion (line 165) does treat an
    unparsable magnitude as not strong. *)
Lemma isSignificant_unparsable (l : EarthquakeData) :
  JSNumber.parseFloat (Magnitude l) = JSNumber.NaN -> isSignificant (Some l) = false.
Proof. intros H. simpl. rewrite H. reflexivity. Qed.

(** ** What a commit does to each field *)

Lemma dataChanged_iff (lastHash newHash : string) (silent : bool) :
  dataChanged lastHash newHash silent = true <->
  lastHash <> "" /\ newHash <> lastHash /\ silent = true.
Proof.
  unfold dataChanged.
  rewrite !andb_true_iff, negb_true_iff, String.eqb_neq.
  destruct lastHash; intuition congruence.
Qed.

Lemma dataChanged_foreground (lastHash newHash : string) :
  dataChanged lastHash newHash false = false.
Proof. unfold dataChanged. apply andb_false_r. Qed.

Lemma dataChanged_first (newHash : string) (silent : bool) :
  dataChanged "" newHash silent = false.
Proof. reflexivity. Qed.

Lemma dataChanged_same (h : string) (silent : bool) :
  dataChanged h h silent = false.
Proof.
  unfold dataChanged. rewrite String.eqb_refl. simpl.
  rewrite andb_false_r. reflexivity.
Qed.

Section Commit.

Variables (seen : Captured) (silent : bool) (w : World).
Variables (parsedLatest : option EarthquakeData).
Variables (newRecent newFelt : list RecentEarthquake).
Variables (newHash : string) (st : AppState).

Let changed := dataChanged (seenHash seen) newHash silent.
Let result := checkAndCommit seen silent w parsedLatest newRecent newFelt newHash st.

Lemma commit_effects :
  snd result =
  if changed && isSignificant parsedLatest && notificationGranted (notification w)
  then match parsedLatest with
       | Some l => [strongQuakeNotification l]
       | None => []
       end
  else [].
Proof.
  subst result changed. unfold checkAndCommit.
  destruct (dataChanged _ _ _); simpl; [|reflexivity].
  destruct parsedLatest as [l|]; simpl; [|reflexivity].
  destruct (JSNumber.ge _ _); simpl; [|reflexivity].
  destruct (notificationGranted _); reflexivity.
Qed.

Lemma commit_fired :
  notificationFired (snd result) =
  changed && isSignificant parsedLatest && notificationGranted (notification w).
Proof.
  rewrite commit_effects.
  destruct changed; simpl; [|reflexivity].
  destruct parsedLatest as [l|]; simpl; [|reflexivity].
  destruct (JSNumber.ge _ _); simpl; [|reflexivity].
  destruct (notificationGranted _); reflexivity.
Qed.

Lemma commit_hasNewData :
  hasNewData (fst result) =
  changed || (if seenFlag seen && negb silent then false else hasNewData st).
Proof.
  subst result changed. unfold checkAndCommit.
  destruct (dataChanged _ _ _) eqn:E.
  - apply dataChanged_iff in E. destruct E as (_ & _ & ->).
    destruct parsedLatest; simpl; rewrite andb_false_r; reflexivity.
  - destruct parsedLatest, (seenFlag seen && negb silent); reflexivity.
Qed.

Lemma commit_latestEarthquake :
  latestEarthquake (fst result) =
  match parsedLatest with Some l => Some l | None => latestEarthquake st end.
Proof.
  subst result. unfold checkAndCommit.
  destruct (dataChanged _ _ _), parsedLatest, (seenFlag seen && negb silent); reflexivity.
Qed.

Lemma commit_lists :
  recentEarthquakes (fst result) = newRecent /\ feltEarthquakes (fst result) = newFelt.
Proof.
  subst result. unfold checkAndCommit.
  destruct (dataChanged _ _ _), parsedLatest, (seenFlag seen && negb silent);
    split; reflexivity.
Qed.

Lemma commit_lastDataHash : lastDataHash (fst result) = newHash.
Proof.
  subst result. unfold checkAndCommit.
  destruct (dataChanged _ _ _), parsedLatest, (seenFlag seen && negb silent); reflexivity.
Qed.

Lemma commit_lastUpdated : lastUpdated (fst result) = Some (now w).
Proof.
  subst result. unfold checkAndCommit.
  destruct (dataChanged _ _ _), parsedLatest, (seenFlag seen && negb silent); reflexivity.
Qed.

Lemma commit_frame :
  error (fst result) = error st /\ loading (fst result) = loading st /\
  autoUpdate (fst result) = autoUpdate st /\ isOnline (fst result) = isOnline st /\
  darkMode (fst result) = darkMode st /\ activeTab (fst result) = activeTab st.
Proof.
  subst result. unfold checkAndCommit.
  destruct (dataChanged _ _ _), parsedLatest, (seenFlag seen && negb silent);
    repeat split; reflexivity.
Qed.

End Commit.

(** ** A whole cycle *)

Lemma fetchList_quiet (msg : string) (r : Response RecentEarthquakeData) :
  notificationFired (snd (fetchList msg r)) = false.
Proof. destruct r as [|[] []]; reflexivity. Qed.

Lemma parseXMLData_quiet (doc : DOM.Node) :
  notificationFired (snd (parseXMLData doc)) = false.
Proof. unfold parseXMLData. destruct (DOM.documentQuerySelector _ _); reflexivity. Qed.

Lemma notificationFired_app (a b : list Effect) :
  notificationFired (a ++ b) = notificationFired a || notificationFired b.
Proof. apply existsb_app. Qed.

Lemma cycleHash_some (w : World) (h : string) :
  cycleHash w = Some h <->
  exists doc, fetchLatest (latestResponse w) = Some doc /\ candidateHash w doc = Some h.
Proof.
  unfold cycleHash. destruct (fetchLatest (latestResponse w)) as [doc|].
  - split; [intros H; exists doc; auto | intros (d & E & H); congruence].
  - split; [discriminate | intros (d & E & _); discriminate].
Qed.

Lemma cycleHash_none (w : World) :
  cycleHash w = None <->
  fetchLatest (latestResponse w) = None \/
  exists doc, fetchLatest (latestResponse w) = Some doc /\ candidateHash w doc = None.
Proof.
  unfold cycleHash. destruct (fetchLatest (latestResponse w)) as [doc|].
  - split; [intros H; right; exists doc; auto|].
    intros [E | (d & E & H)]; congruence.
  - split; auto.
Qed.

Section Cycle.

Variables (seen : Captured) (silent : bool) (w : World) (st : AppState).

(** The latest fetch throws. *)
Lemma finish_thrown :
  fetchLatest (latestResponse w) = None ->
  cycleFinish seen silent w st = (cycleCaught silent st, [ConsoleError fetchErrorLog]).
Proof. intros H. unfold cycleFinish. rewrite H. reflexivity. Qed.

(** [btoa] throws. *)
Lemma finish_unsigned (doc : DOM.Node) :
  fetchLatest (latestResponse w) = Some doc ->
  candidateHash w doc = None ->
  cycleFinish seen silent w st =
  (cycleCaught silent st,
   snd (parseXMLData doc) ++ snd (fetchList recentWarning (recentResponse w)) ++
   snd (fetchList feltWarning (feltResponse w)) ++ [ConsoleError fetchErrorLog]).
Proof.
  intros H. unfold cycleFinish, candidateHash, candidateLatest, candidateRecent, candidateFelt.
  rewrite H.
  destruct (parseXMLData doc), (fetchList recentWarning _), (fetchList feltWarning _).
  simpl. intros ->. reflexivity.
Qed.

Lemma finish_committed (doc : DOM.Node) (h : string) :
  fetchLatest (latestResponse w) = Some doc ->
  candidateHash w doc = Some h ->
  cycleFinish seen silent w st =
  let c := checkAndCommit seen silent w
             (candidateLatest doc) (candidateRecent w) (candidateFelt w) h st in
  ((if silent then fst c else setLoading false (fst c)),
   snd (parseXMLData doc) ++ snd (fetchList recentWarning (recentResponse w)) ++
   snd (fetchList feltWarning (feltResponse w)) ++ snd c).
Proof.
  intros H. unfold cycleFinish, candidateHash, candidateLatest, candidateRecent, candidateFelt.
  rewrite H.
  destruct (parseXMLData doc), (fetchList recentWarning _), (fetchList feltWarning _).
  simpl. intros ->. destruct (checkAndCommit _ _ _ _ _ _ _ _). reflexivity.
Qed.

(** Whenever no signature is arrived at, the cycle ends in the [catch]. *)
Lemma finish_caught :
  cycleHash w = None ->
  fst (cycleFinish seen silent w st) = cycleCaught silent st /\
  notificationFired (snd (cycleFinish seen silent w st)) = false /\
  In (ConsoleError fetchErrorLog) (snd (cycleFinish seen silent w st)).
Proof.
  intros H. apply cycleHash_none in H. destruct H as [F | (doc & F & U)].
  - rewrite (finish_thrown F). repeat split. left. reflexivity.
  - rewrite (finish_unsigned doc F U). cbn [fst snd].
    rewrite !notificationFired_app, parseXMLData_quiet, !fetchList_quiet.
    repeat split. rewrite !in_app_iff. right; right; right. left. reflexivity.
Qed.

Section Committed.

Variables (doc : DOM.Node) (h : string).
Hypothesis fetched : fetchLatest (latestResponse w) = Some doc.
Hypothesis signed : candidateHash w doc = Some h.

Let st' := fst (cycleFinish seen silent w st).

Lemma finish_latestEarthquake :
  latestEarthquake st' =
  match candidateLatest doc with Some l => Some l | None => latestEarthquake st end.
Proof.
  subst st'. rewrite (finish_committed doc h fetched signed). cbv zeta.
  destruct silent; simpl; rewrite commit_latestEarthquake; reflexivity.
Qed.

Lemma finish_lists :
  recentEarthquakes st' = candidateRecent w /\ feltEarthquakes st' = candidateFelt w.
Proof.
  subst st'. rewrite (finish_committed doc h fetched signed). cbv zeta.
  destruct silent; simpl; apply commit_lists.
Qed.

Lemma finish_lastDataHash : lastDataHash st' = h.
Proof.
  subst st'. rewrite (finish_committed doc h fetched signed). cbv zeta.
  destruct silent; simpl; rewrite commit_lastDataHash; reflexivity.
Qed.

Lemma finish_lastUpdated : lastUpdated st' = Some (now w).
Proof.
  subst st'. rewrite (finish_committed doc h fetched signed). cbv zeta.
  destruct silent; simpl; apply commit_lastUpdated.
Qed.

Lemma finish_hasNewData :
  hasNewData st' =
  dataChanged (seenHash seen) h silent ||
  (if seenFlag seen && negb silent then false else hasNewData st).
Proof.
  subst st'. rewrite (finish_committed doc h fetched signed). cbv zeta.
  destruct silent; simpl; rewrite commit_hasNewData; reflexivity.
Qed.

Lemma finish_error : error st' = error st.
Proof.
  subst st'. rewrite (finish_committed doc h fetched signed). cbv zeta.
  destruct silent; simpl;
    match goal with
    | |- context [checkAndCommit ?a ?b ?c ?d ?e ?f ?g ?i] =>
        destruct (commit_frame a b c d e f g i) as (-> & _)
    end; reflexivity.
Qed.

Lemma finish_loading : loading st' = if silent then loading st else false.
Proof.
  subst st'. rewrite (finish_committed doc h fetched signed). cbv zeta.
  destruct silent; simpl; [|reflexivity].
  match goal with
  | |- context [checkAndCommit ?a ?b ?c ?d ?e ?f ?g ?i] =>
      destruct (commit_frame a b c d e f g i) as (_ & -> & _)
  end; reflexivity.
Qed.

Lemma finish_switches :
  autoUpdate st' = autoUpdate st /\ isOnline st' = isOnline st /\
  darkMode st' = darkMode st /\ activeTab st' = activeTab st.
Proof.
  subst st'. rewrite (finish_committed doc h fetched signed). cbv zeta.
  destruct silent; simpl;
    match goal with
    | |- context [checkAndCommit ?a ?b ?c ?d ?e ?f ?g ?i] =>
        destruct (commit_frame a b c d e f g i) as (_ & _ & -> & -> & -> & ->)
    end; repeat split.
Qed.

Lemma finish_fired :
  notificationFired (snd (cycleFinish seen silent w st)) =
  dataChanged (seenHash seen) h silent &&
  isSignificant (candidateLatest doc) && notificationGranted (notification w).
Proof.
  rewrite (finish_committed doc h fetched signed). cbv zeta. cbn [snd].
  rewrite !notificationFired_app, parseXMLData_quiet, !fetchList_quiet. simpl.
  apply commit_fired.
Qed.

End Committed.

End Cycle.

(** The same for a whole call: the first lines only touch [loading] and
    [error]. *)
Section Call.

Variables (seen : Captured) (silent : bool) (w : World) (st : AppState).

Lemma cycleStart_data :
  latestEarthquake (cycleStart silent st) = latestEarthquake st /\
  recentEarthquakes (cycleStart silent st) = recentEarthquakes st /\
  feltEarthquakes (cycleStart silent st) = feltEarthquakes st /\
  lastDataHash (cycleStart silent st) = lastDataHash st /\
  hasNewData (cycleStart silent st) = hasNewData st /\
  lastUpdated (cycleStart silent st) = lastUpdated st.
Proof. destruct silent; repeat split. Qed.

Lemma cycleCaught_data (x : AppState) :
  latestEarthquake (cycleCaught silent x) = latestEarthquake x /\
  recentEarthquakes (cycleCaught silent x) = recentEarthquakes x /\
  feltEarthquakes (cycleCaught silent x) = feltEarthquakes x /\
  lastDataHash (cycleCaught silent x) = lastDataHash x /\
  hasNewData (cycleCaught silent x) = hasNewData x /\
  lastUpdated (cycleCaught silent x) = lastUpdated x.
Proof. destruct silent; repeat split. Qed.

Lemma cycle_thrown :
  fetchLatest (latestResponse w) = None ->
  fetchAllEarthquakeData seen silent w st =
  ((if silent then st
    else setLoading false (setError (Some fetchErrorMessage)
           (setError None (setLoading true st)))),
   [ConsoleError fetchErrorLog]).
Proof.
  intros H. unfold fetchAllEarthquakeData. rewrite (finish_thrown _ _ _ _ H).
  destruct silent; reflexivity.
Qed.

(** Whenever no signature is arrived at, the stored data stay and the
    call ends in the [catch]. *)
Lemma cycle_caught :
  cycleHash w = None ->
  let st' := fst (fetchAllEarthquakeData seen silent w st) in
  st' = (if silent then st
         else setLoading false (setError (Some fetchErrorMessage)
                (setError None (setLoading true st)))) /\
  notificationFired (snd (fetchAllEarthquakeData seen silent w st)) = false.
Proof.
  intros H. unfold fetchAllEarthquakeData.
  destruct (finish_caught seen silent w (cycleStart silent st) H) as (-> & -> & _).
  destruct silent; split; reflexivity.
Qed.

Lemma cycle_caught_data :
  cycleHash w = None ->
  let st' := fst (fetchAllEarthquakeData seen silent w st) in
  latestEarthquake st' = latestEarthquake st /\
  recentEarthquakes st' = recentEarthquakes st /\
  feltEarthquakes st' = feltEarthquakes st /\
  lastDataHash st' = lastDataHash st /\
  hasNewData st' = hasNewData st /\
  lastUpdated st' = lastUpdated st.
Proof.
  intros H. cbv zeta. destruct (cycle_caught H) as (-> & _).
  destruct silent; repeat split.
Qed.

Section CommittedCall.

Variables (doc : DOM.Node) (h : string).
Hypothesis fetched : fetchLatest (latestResponse w) = Some doc.
Hypothesis signed : candidateHash w doc = Some h.

Let st' := fst (fetchAllEarthquakeData seen silent w st).

Lemma cycle_latestEarthquake :
  latestEarthquake st' =
  match candidateLatest doc with Some l => Some l | None => latestEarthquake st end.
Proof.
  subst st'. unfold fetchAllEarthquakeData.
  rewrite (finish_latestEarthquake seen silent w _ doc h fetched signed).
  destruct silent; reflexivity.
Qed.

Lemma cycle_lists :
  recentEarthquakes st' = candidateRecent w /\ feltEarthquakes st' = candidateFelt w.
Proof. apply (finish_lists seen silent w _ doc h fetched signed). Qed.

Lemma cycle_lastDataHash : lastDataHash st' = h.
Proof. apply (finish_lastDataHash seen silent w _ doc h fetched signed). Qed.

Lemma cycle_lastUpdated : lastUpdated st' = Some (now w).
Proof. apply (finish_lastUpdated seen silent w _ doc h fetched signed). Qed.

Lemma cycle_hasNewData :
  hasNewData st' =
  dataChanged (seenHash seen) h silent ||
  (if seenFlag seen && negb silent then false else hasNewData st).
Proof.
  subst st'. unfold fetchAllEarthquakeData.
  rewrite (finish_hasNewData seen silent w _ doc h fetched signed).
  destruct silent; reflexivity.
Qed.

Lemma cycle_error : error st' = if silent then error st else None.
Proof.
  subst st'. unfold fetchAllEarthquakeData.
  rewrite (finish_error seen silent w _ doc h fetched signed).
  destruct silent; reflexivity.
Qed.

Lemma cycle_loading : loading st' = if silent then loading st else false.
Proof.
  subst st'. unfold fetchAllEarthquakeData.
  rewrite (finish_loading seen silent w _ doc h fetched signed).
  destruct silent; reflexivity.
Qed.

Lemma cycle_fired :
  notificationFired (snd (fetchAllEarthquakeData seen silent w st)) =
  dataChanged (seenHash seen) h silent &&
  isSignificant (candidateLatest doc) && notificationGranted (notification w).
Proof. apply (finish_fired seen silent w _ doc h fetched signed). Qed.

End CommittedCall.

End Call.

(** ** What the signature keeps *)

(** *** Base64 loses nothing *)

Lemma undigit_digit (x : Base64.sextet) : undigit (Base64.digit x) = Some x.
Proof.
  destruct x as [[[[[b5 b4] b3] b2] b1] b0].
  destruct b5, b4, b3, b2, b1, b0; vm_compute; reflexivity.
Qed.

Lemma digit_inj (x y : Base64.sextet) : Base64.digit x = Base64.digit y -> x = y.
Proof.
  intros H. apply (f_equal undigit) in H. rewrite !undigit_digit in H. congruence.
Qed.

Lemma digit_not_pad (x : Base64.sextet) : Base64.digit x <> Base64.pad.
Proof.
  intros H. apply (f_equal undigit) in H. rewrite undigit_digit in H.
  vm_compute in H. discriminate.
Qed.

(** Induction that follows the three-byte groups of the encoding. *)
Lemma by_triples (P : string -> Prop) :
  P "" ->
  (forall a, P (String a "")) ->
  (forall a b, P (String a (String b ""))) ->
  (forall a b c r, P r -> P (String a (String b (String c r)))) ->
  forall s, P s.
Proof.
  intros H0 H1 H2 H3. fix self 1.
  intros [|a [|b [|c r]]]; [apply H0 | apply H1 | apply H2 | apply H3, self].
Qed.

Ltac digits_agree :=
  repeat match goal with
  | H : Base64.digit _ = Base64.pad |- _ => apply digit_not_pad in H; contradiction
  | H : Base64.pad = Base64.digit _ |- _ =>
      symmetry in H; apply digit_not_pad in H; contradiction
  | H : Base64.digit _ = Base64.digit _ |- _ =>
      apply digit_inj in H; injection H as ?; subst
  end.

Lemma encode_inj (s1 s2 : string) : Base64.encode s1 = Base64.encode s2 -> s1 = s2.
Proof.
  revert s2. induction s1 as [|a|a b|a b c r IH] using by_triples;
    intros [|a' [|b' [|c' r']]] H;
    repeat match goal with x : ascii |- _ => destruct x end;
    cbn [Base64.encode] in H; try discriminate H; try reflexivity;
    injection H as ?; digits_agree; try reflexivity.
  match goal with E : Base64.encode r = Base64.encode r' |- _ => rewrite (IH _ E) end.
  reflexivity.
Qed.

Lemma encode_nonempty (a : ascii) (r : string) : Base64.encode (String a r) <> "".
Proof.
  destruct a, r as [|[] [|[] r]]; discriminate.
Qed.

(** *** Strings without a code unit above 255 *)

Lemma toLatin_lit (b : string) : JSString.toLatin (js b) = Some b.
Proof. induction b as [|a b IH]; simpl; [reflexivity | rewrite IH; reflexivity]. Qed.

Lemma toLatin_some (s : jsstring) (b : string) :
  JSString.toLatin s = Some b -> s = js b.
Proof.
  revert b. induction s as [|[a|p] s IH]; intros b H; simpl in H.
  - injection H as <-. reflexivity.
  - destruct (JSString.toLatin s) as [b'|]; [|discriminate H].
    injection H as <-. rewrite (IH b' eq_refl). reflexivity.
  - discriminate H.
Qed.

Lemma toLatin_isLatin (s : jsstring) :
  isLatin s = true <-> exists b, JSString.toLatin s = Some b.
Proof.
  induction s as [|[a|p] s IH]; simpl.
  - split; [eexists; reflexivity | reflexivity].
  - rewrite IH. split; intros (b & E).
    + rewrite E. eexists. reflexivity.
    + destruct (JSString.toLatin s) as [b'|]; [eexists; reflexivity | discriminate E].
  - split; [discriminate | intros (b & E); discriminate E].
Qed.

Lemma isLatin_app (a b : jsstring) : isLatin (a ++ b) = isLatin a && isLatin b.
Proof. apply forallb_app. Qed.

Lemma isLatin_lit (b : string) : isLatin (js b) = true.
Proof. induction b as [|a b IH]; simpl; [reflexivity | exact IH]. Qed.

Lemma btoa_some (s : jsstring) : isLatin s = true <-> exists h, btoa s = Some h.
Proof.
  unfold btoa. rewrite toLatin_isLatin. split; intros (x & E).
  - rewrite E. eexists. reflexivity.
  - destruct (JSString.toLatin s) as [b|]; [eexists; reflexivity | discriminate E].
Qed.

Lemma btoa_inj (s1 s2 : jsstring) (h : string) :
  btoa s1 = Some h -> btoa s2 = Some h -> s1 = s2.
Proof.
  unfold btoa. intros H1 H2.
  destruct (JSString.toLatin s1) as [b1|] eqn:E1; [|discriminate H1].
  destruct (JSString.toLatin s2) as [b2|] eqn:E2; [|discriminate H2].
  simpl in H1, H2. injection H1 as H1. injection H2 as H2.
  rewrite (toLatin_some _ _ E1), (toLatin_some _ _ E2).
  rewrite (encode_inj b1 b2); [reflexivity | congruence].
Qed.

(** *** [JSON.stringify] loses nothing *)

Lemma latin_code (a : ascii) : (JSString.code (JSString.Latin a) < 256)%N.
Proof. apply N_ascii_bounded. Qed.

Lemma ofCode_code (c : JSString.char) : JSString.ofCode (JSString.code c) = c.
Proof.
  destruct c as [a|p]; unfold JSString.ofCode.
  - pose proof (latin_code a) as B. cbn [JSString.code] in *.
    apply N.ltb_lt in B. rewrite B. rewrite ascii_N_embedding. reflexivity.
  - cbn [JSString.code].
    assert (B : (255 + N.pos p <? 256)%N = false) by (apply N.ltb_ge; lia).
    rewrite B. f_equal.
    replace (255 + N.pos p - 256)%N with (N.pred (N.pos p)) by lia.
    assert (E : N.pos (N.succ_pos (N.pred (N.pos p))) = N.pos p)
      by (rewrite N.succ_pos_spec; lia).
    injection E as E. exact E.
Qed.

Lemma high_is_above (c : JSString.char) :
  JSON.isHighSurrogate c = true -> isLatin [c] = false.
Proof.
  destruct c as [a|p]; [|reflexivity].
  unfold JSON.isHighSurrogate. pose proof (latin_code a) as B.
  intros H. apply andb_true_iff in H. destruct H as (H & _).
  apply N.leb_le in H. lia.
Qed.

Lemma hexValue_hexDigit (x : N) : (x < 16)%N -> hexValue (JSON.hexDigit x) = Some x.
Proof.
  intros H.
  assert (C : (x = 0 \/ x = 1 \/ x = 2 \/ x = 3 \/ x = 4 \/ x = 5 \/ x = 6 \/ x = 7 \/
               x = 8 \/ x = 9 \/ x = 10 \/ x = 11 \/ x = 12 \/ x = 13 \/ x = 14 \/
               x = 15)%N) by lia.
  repeat (destruct C as [-> | C]; [reflexivity|]). subst x. reflexivity.
Qed.

Lemma unescapeHead_unicodeEscape (n : N) (rest : jsstring) :
  (n < 65536)%N ->
  unescapeHead (JSON.unicodeEscape n ++ rest) = Some (JSString.ofCode n, rest).
Proof.
  intros B. unfold JSON.unicodeEscape. cbn [app unescapeHead JSON.backslash].
  cbn [Ascii.eqb Bool.eqb andb].
  rewrite !hexValue_hexDigit;
    [| apply N.mod_lt; discriminate | apply N.mod_lt; discriminate
     | apply N.mod_lt; discriminate | apply N.Div0.div_lt_upper_bound; exact B ].
  pose proof (N.Div0.div_mod n 16) as E0.
  pose proof (N.Div0.div_mod (n / 16) 16) as E1.
  pose proof (N.Div0.div_mod (n / 256) 16) as E2.
  assert (D1 : (n / 16 / 16 = n / 256)%N) by (rewrite N.Div0.div_div; reflexivity).
  assert (D2 : (n / 256 / 16 = n / 4096)%N) by (rewrite N.Div0.div_div; reflexivity).
  assert (M : (n / 4096 < 16)%N) by (apply N.Div0.div_lt_upper_bound; exact B).
  assert (M3 : ((n / 4096) mod 16 = n / 4096)%N) by (apply N.mod_small; exact M).
  rewrite D1 in E1. rewrite D2 in E2.
  replace (4096 * (n / 4096) + 256 * ((n / 256) mod 16) + 16 * ((n / 16) mod 16) +
           n mod 16)%N with n by lia.
  reflexivity.
Qed.

Lemma unescapeHead_escapeUnit (c : JSString.char) (rest : jsstring) :
  unescapeHead (JSON.escapeUnit c ++ rest) = Some (c, rest).
Proof.
  destruct c as [a|p].
  - destruct a as [b0 b1 b2 b3 b4 b5 b6 b7].
    destruct b0, b1, b2, b3, b4, b5, b6, b7; reflexivity.
  - cbn [JSON.escapeUnit].
    destruct (JSON.isHighSurrogate (JSString.Above p) || JSON.isLowSurrogate (JSString.Above p))
      eqn:S; [|reflexivity].
    rewrite unescapeHead_unicodeEscape, ofCode_code; [reflexivity|].
    unfold JSON.isHighSurrogate, JSON.isLowSurrogate in S.
    apply orb_true_iff in S.
    destruct S as [S|S]; apply andb_true_iff in S; destruct S as (_ & S);
      apply N.leb_le in S; lia.
Qed.

Lemma flat_escape_quote_inj (a b r1 r2 : jsstring) :
  flat_map JSON.escapeUnit a ++ JSON.dquote :: r1 =
  flat_map JSON.escapeUnit b ++ JSON.dquote :: r2 ->
  a = b /\ r1 = r2.
Proof.
  revert b. induction a as [|c a IH]; intros [|d b] H; cbn [flat_map] in H.
  - injection H as ->. split; reflexivity.
  - rewrite <- app_assoc in H. apply (f_equal unescapeHead) in H.
    rewrite unescapeHead_escapeUnit in H. discriminate H.
  - rewrite <- app_assoc in H. apply (f_equal unescapeHead) in H.
    rewrite unescapeHead_escapeUnit in H. discriminate H.
  - rewrite <- !app_assoc in H. apply (f_equal unescapeHead) in H.
    rewrite !unescapeHead_escapeUnit in H. injection H as -> H.
    destruct (IH b H) as (-> & ->). split; reflexivity.
Qed.

(** A quoted string without a code unit above 255 holds no surrogate
    pair, so every code unit was escaped by itself. *)
Lemma escape_latin_form (s : jsstring) :
  isLatin (JSON.escape s) = true -> JSON.escape s = flat_map JSON.escapeUnit s.
Proof.
  induction s as [|c r IH]; [reflexivity|].
  cbn [JSON.escape flat_map].
  destruct (JSON.isHighSurrogate c) eqn:Hc.
  - destruct r as [|l r'].
    + intros _. rewrite app_nil_r. reflexivity.
    + destruct (JSON.isLowSurrogate l).
      * intros L. pose proof (high_is_above c Hc) as N.
        simpl in L, N. rewrite andb_true_r in N. rewrite N in L. discriminate L.
      * rewrite isLatin_app. intros L. apply andb_true_iff in L.
        rewrite (IH (proj2 L)). reflexivity.
  - rewrite isLatin_app. intros L. apply andb_true_iff in L.
    rewrite (IH (proj2 L)). reflexivity.
Qed.

Lemma escapeUnit_latin (a : ascii) : isLatin (JSON.escapeUnit (JSString.Latin a)) = true.
Proof.
  destruct a as [b0 b1 b2 b3 b4 b5 b6 b7].
  destruct b0, b1, b2, b3, b4, b5, b6, b7; reflexivity.
Qed.

Lemma escape_of_latin (s : jsstring) : isLatin s = true -> isLatin (JSON.escape s) = true.
Proof.
  induction s as [|[a|p] r IH]; [reflexivity | | discriminate].
  intros L. cbn [isLatin forallb] in L. cbn [JSON.escape].
  assert (H : JSON.isHighSurrogate (JSString.Latin a) = false).
  { destruct (JSON.isHighSurrogate (JSString.Latin a)) eqn:E; [|reflexivity].
    apply high_is_above in E. discriminate E. }
  rewrite H, isLatin_app, escapeUnit_latin. apply IH, L.
Qed.

Lemma stringifyData_shape (a b c : jsstring) :
  JSON.stringifyData a b c =
  beforeLatest ++ JSON.escape a ++ JSON.dquote ::
  beforeRecent ++ JSON.escape b ++ JSON.dquote ::
  beforeFelt ++ JSON.escape c ++ JSON.dquote :: js "}".
Proof.
  unfold JSON.stringifyData, JSON.quote, beforeLatest, beforeRecent, beforeFelt.
  cbn [JSON.escape js JSString.lit app].
  repeat (rewrite <- ?app_assoc; cbn [app]). reflexivity.
Qed.

Lemma stringifyData_latin (a b c : jsstring) :
  isLatin (JSON.stringifyData a b c) =
  isLatin (JSON.escape a) && isLatin (JSON.escape b) && isLatin (JSON.escape c).
Proof.
  rewrite stringifyData_shape.
  change (JSON.dquote :: ?x) with ([JSON.dquote] ++ x).
  repeat (rewrite isLatin_app || (cbn [isLatin forallb JSON.dquote beforeLatest beforeRecent
    beforeFelt js JSString.lit app]; rewrite ?andb_true_r; cbn [andb])).
  rewrite andb_assoc. reflexivity.
Qed.

Lemma stringifyData_inj (a b c a' b' c' : jsstring) :
  isLatin (JSON.stringifyData a b c) = true ->
  JSON.stringifyData a b c = JSON.stringifyData a' b' c' ->
  a = a' /\ b = b' /\ c = c'.
Proof.
  intros L H. pose proof L as L'. rewrite H in L'.
  rewrite stringifyData_latin in L, L'.
  apply andb_true_iff in L, L'. destruct L as (L & Lc), L' as (L' & Lc').
  apply andb_true_iff in L, L'. destruct L as (La & Lb), L' as (La' & Lb').
  rewrite !stringifyData_shape in H.
  rewrite !(escape_latin_form _ La), !(escape_latin_form _ Lb),
    !(escape_latin_form _ Lc), !(escape_latin_form _ La'),
    !(escape_latin_form _ Lb'), !(escape_latin_form _ Lc') in H.
  apply app_inv_head in H. apply flat_escape_quote_inj in H. destruct H as (-> & H).
  apply app_inv_head in H. apply flat_escape_quote_inj in H. destruct H as (-> & H).
  apply app_inv_head in H. apply flat_escape_quote_inj in H. destruct H as (-> & _).
  repeat split.
Qed.

(** Two signatures are equal exactly when the three strings they are
    computed from are. *)
Lemma generateDataHash_inj (latest latest' : option EarthquakeData)
    (recent recent' felt felt' : list RecentEarthquake) (h : string) :
  generateDataHash latest recent felt = Some h ->
  generateDataHash latest' recent' felt' = Some h ->
  latestDateTime latest = latestDateTime latest' /\
  JSString.join "," (map re_DateTime recent) = JSString.join "," (map re_DateTime recent') /\
  JSString.join "," (map re_DateTime felt) = JSString.join "," (map re_DateTime felt').
Proof.
  unfold generateDataHash. intros H H'.
  apply stringifyData_inj.
  - apply btoa_some. exists h. exact H.
  - exact (btoa_inj _ _ h H H').
Qed.

Lemma generateDataHash_ext (latest latest' : option EarthquakeData)
    (recent recent' felt felt' : list RecentEarthquake) :
  latestDateTime latest = latestDateTime latest' ->
  JSString.join "," (map re_DateTime recent) = JSString.join "," (map re_DateTime recent') ->
  JSString.join "," (map re_DateTime felt) = JSString.join "," (map re_DateTime felt') ->
  generateDataHash latest recent felt = generateDataHash latest' recent' felt'.
Proof. unfold generateDataHash. intros -> -> ->. reflexivity. Qed.

(** Every signature starts with the encoding of an opening brace. *)
Lemma generateDataHash_nonempty (latest : option EarthquakeData)
    (recent felt : list RecentEarthquake) (h : string) :
  generateDataHash latest recent felt = Some h -> h <> "".
Proof.
  unfold generateDataHash, btoa. rewrite stringifyData_shape.
  unfold beforeLatest. cbn [js JSString.lit app JSString.toLatin].
  destruct (JSString.toLatin _) as [b|]; [|discriminate].
  cbn [option_map]. intros H. injection H as <-. discriminate.
Qed.

(** *** When a signature is produced *)

Lemma join_latin (l : list jsstring) :
  Forall (fun s => isLatin s = true) l -> isLatin (JSString.join "," l) = true.
Proof.
  induction l as [|x [|y r] IH]; intros F; [reflexivity | |].
  - inversion F; subst. assumption.
  - inversion F as [|? ? Hx F']; subst.
    change (isLatin (x ++ js "," ++ JSString.join "," (y :: r)) = true).
    rewrite !isLatin_app, Hx, (IH F'). reflexivity.
Qed.

Lemma latinTimestamps_join (l : list RecentEarthquake) :
  latinTimestamps l -> isLatin (JSString.join "," (map re_DateTime l)) = true.
Proof. intros H. apply join_latin, Forall_map, H. Qed.

Lemma generateDataHash_latin (latest : option EarthquakeData)
    (recent felt : list RecentEarthquake) :
  isLatin (latestDateTime latest) = true ->
  latinTimestamps recent -> latinTimestamps felt ->
  exists h, generateDataHash latest recent felt = Some h.
Proof.
  intros La Lr Lf. apply btoa_some. rewrite stringifyData_latin.
  rewrite (escape_of_latin _ La), (escape_of_latin _ (latinTimestamps_join _ Lr)),
    (escape_of_latin _ (latinTimestamps_join _ Lf)).
  reflexivity.
Qed.

(** *** Joining with commas *)

Lemma comma_split (x y rx ry : jsstring) :
  commaFree x = true -> commaFree y = true ->
  x ++ comma :: rx = y ++ comma :: ry -> x = y /\ rx = ry.
Proof.
  unfold commaFree. revert y.
  induction x as [|c x IH]; intros [|d y] Hx Hy H; cbn [app] in H.
  - injection H as ->. split; reflexivity.
  - injection H as E _. subst d. cbn in Hy. discriminate Hy.
  - injection H as E _. subst c. cbn in Hx. discriminate Hx.
  - injection H as -> H.
    cbn [JSString.includesChar] in Hx, Hy.
    rewrite negb_true_iff, orb_false_iff in Hx, Hy.
    destruct Hx as (_ & Hx), Hy as (_ & Hy).
    destruct (IH y) as (-> & ->); try (apply negb_true_iff; assumption); auto.
Qed.

Lemma join_comma_inj (l1 l2 : list jsstring) :
  List.length l1 = List.length l2 ->
  Forall (fun s => commaFree s = true) l1 ->
  Forall (fun s => commaFree s = true) l2 ->
  JSString.join "," l1 = JSString.join "," l2 -> l1 = l2.
Proof.
  revert l2. induction l1 as [|x r IH]; intros [|y r2] L F1 F2 H;
    try discriminate L; [reflexivity|].
  inversion F1 as [|? ? Cx F1']; inversion F2 as [|? ? Cy F2']; subst.
  destruct r as [|x2 r], r2 as [|y2 r2]; try discriminate L.
  - simpl in H. subst. reflexivity.
  - change (x ++ comma :: JSString.join "," (x2 :: r) =
            y ++ comma :: JSString.join "," (y2 :: r2)) in H.
    destruct (comma_split _ _ _ _ Cx Cy H) as (-> & H').
    f_equal. apply IH; auto.
Qed.

Lemma commaFreeTimestamps_map (l : list RecentEarthquake) :
  commaFreeTimestamps l -> Forall (fun s => commaFree s = true) (map re_DateTime l).
Proof. unfold commaFreeTimestamps. intros H. apply Forall_map. exact H. Qed.

Lemma reordered_join_differs (l l' : list RecentEarthquake) :
  commaFreeTimestamps l -> Permutation l l' ->
  map re_DateTime l <> map re_DateTime l' ->
  JSString.join "," (map re_DateTime l) <> JSString.join "," (map re_DateTime l').
Proof.
  intros C P N E. apply N. apply join_comma_inj; [| | |exact E].
  - rewrite !length_map. apply Permutation_length, P.
  - apply commaFreeTimestamps_map, C.
  - apply commaFreeTimestamps_map. unfold commaFreeTimestamps.
    apply (Permutation_Forall P). exact C.
Qed.

(** ** C2 *)

Lemma isSignificant_iff (parsedLatest : option EarthquakeData) :
  isSignificant parsedLatest = true <->
  exists l, parsedLatest = Some l /\ parsesAtLeast (Magnitude l) 6.
Proof.
  destruct parsedLatest as [l|]; simpl.
  - rewrite ge_parsesAtLeast. split.
    + intros H. exists l. split; [reflexivity | exact H].
    + intros (l' & E & H). injection E as <-. exact H.
  - split; [discriminate | intros (l' & E & _); discriminate].
Qed.

Lemma notificationGranted_iff (api : option Permission) :
  notificationGranted api = true <-> api = Some PermissionGranted.
Proof. destruct api as [[]|]; simpl; split; congruence. Qed.

(** C2.  With the candidate of a cycle in hand (lines 160-173), a
    notification is shown if and only if the cycle is silent, the stored
    signature the callback sees is not empty, the candidate signature
    differs from it, the candidate's latest event has a magnitude that
    parses to at least 6, and the permission is 'granted'; a foreground
    cycle never shows one.  The same holds of a whole call, where the
    candidate is the one the call arrives at. *)
Theorem notification_decision (seen : Captured) (silent : bool) (w : World)
    (parsedLatest : option EarthquakeData) (newRecent newFelt : list RecentEarthquake)
    (newHash : string) (st : AppState) :
  (notificationFired
     (snd (checkAndCommit seen silent w parsedLatest newRecent newFelt newHash st)) = true <->
   silent = true /\
   seenHash seen <> "" /\
   newHash <> seenHash seen /\
   (exists l, parsedLatest = Some l /\ parsesAtLeast (Magnitude l) 6) /\
   notification w = Some PermissionGranted) /\
  notificationFired
    (snd (checkAndCommit seen false w parsedLatest newRecent newFelt newHash st)) = false /\
  (notificationFired (snd (fetchAllEarthquakeData seen silent w st)) = true <->
   silent = true /\
   seenHash seen <> "" /\
   (exists doc h l,
      fetchLatest (latestResponse w) = Some doc /\
      candidateHash w doc = Some h /\ h <> seenHash seen /\
      candidateLatest doc = Some l /\ parsesAtLeast (Magnitude l) 6) /\
   notification w = Some PermissionGranted) /\
  notificationFired (snd (fetchAllEarthquakeData seen false w st)) = false.
Proof.
  split; [|split; [|split]].
  - rewrite commit_fired, !andb_true_iff, dataChanged_iff, isSignificant_iff,
      notificationGranted_iff. tauto.
  - rewrite commit_fired, dataChanged_foreground. reflexivity.
  - destruct (cycleHash w) as [h|] eqn:C.
    + apply cycleHash_some in C. destruct C as (doc & F & S).
      rewrite (cycle_fired seen silent w st doc h F S), !andb_true_iff, dataChanged_iff,
        isSignificant_iff, notificationGranted_iff.
      split.
      * intros ((( N & D & ->) & (l & E & P)) & G).
        repeat split; auto. exists doc, h, l. auto.
      * intros (-> & N & (doc' & h' & l & F' & S' & D & E & P) & G).
        assert (doc' = doc) by congruence. subst doc'.
        assert (h' = h) by congruence. subst h'.
        repeat split; auto. exists l. auto.
    + destruct (cycle_caught seen silent w st C) as (_ & Q). rewrite Q.
      split; [discriminate|].
      intros (_ & _ & (doc & h & l & F & S & _) & _).
      assert (cycleHash w = Some h) by (apply cycleHash_some; exists doc; auto).
      congruence.
  - destruct (cycleHash w) as [h|] eqn:C.
    + apply cycleHash_some in C. destruct C as (doc & F & S).
      rewrite (cycle_fired seen false w st doc h F S), dataChanged_foreground. reflexivity.
    + destruct (cycle_caught seen false w st C) as (_ & Q). exact Q.
Qed.

(** The magnitude is compared as the double [parseFloat] returns: a text
    just below six that rounds to six notifies. *)
Example rounded_magnitude_notifies :
  let w := sampleWorld (Replied true (Some (sampleDocument "t2" "5.9999999999999999")))
             Rejected Rejected in
  notificationFired (snd (freshCycle settledState true w)) = true /\
  notificationFired (snd (freshCycle settledState false w)) = false.
Proof. vm_compute. split; reflexivity. Qed.

(** ** C4 *)

Lemma sliceFeed_length (d : RecentEarthquakeData) : List.length (sliceFeed d) <= 15.
Proof.
  destruct d as [[[[l|]]|]]; cbv [sliceFeed Infogempa gempa List.length]; try lia.
  apply firstn_le_length.
Qed.

(** C4.  The list decoder keeps at most 15 records; of a feed of 20 it
    keeps exactly the first 15, in feed order; a document without the
    container or without the inner array gives the empty list, and a
    decoded document never makes the list fetch fail or warn. *)
Theorem list_feed_first_fifteen (d : RecentEarthquakeData) (l : list RecentEarthquake) :
  List.length l = 20 ->
  List.length (sliceFeed d) <= 15 /\
  sliceFeed (feedOf l) = firstn 15 l /\
  List.length (sliceFeed (feedOf l)) = 15 /\
  l = (sliceFeed (feedOf l) ++ skipn 15 l)%list /\
  sliceFeed {| Infogempa := None |} = [] /\
  sliceFeed {| Infogempa := Some {| gempa := None |} |} = [] /\
  fetchList recentWarning (Replied true (Some d)) = (sliceFeed d, []).
Proof.
  intros H. repeat split.
  - apply sliceFeed_length.
  - cbv [feedOf sliceFeed Infogempa gempa]. rewrite length_firstn. lia.
  - cbv [feedOf sliceFeed Infogempa gempa]. symmetry. apply firstn_skipn.
Qed.

Lemma list_feed_first_fifteen_witness :
  map re_DateTime (sliceFeed (feedOf twentyQuakes)) =
  map js ["t01"; "t02"; "t03"; "t04"; "t05"; "t06"; "t07"; "t08"; "t09"; "t10";
          "t11"; "t12"; "t13"; "t14"; "t15"].
Proof.
  destruct (list_feed_first_fifteen (feedOf []) twentyQuakes eq_refl) as (_ & E & _).
  rewrite E. reflexivity.
Defined.

(** ** C6 *)

Lemma fetchLatest_fails (r : Response DOM.Node) :
  fetchLatest r = None <->
  r = Rejected \/ (exists body, r = Replied false body) \/ r = Replied true None.
Proof.
  destruct r as [|[] [doc|]]; simpl; split; intros H;
    try discriminate; try tauto;
    try (right; left; eexists; reflexivity);
    try (destruct H as [H|[(b & H)|H]]; discriminate).
Qed.

(** C6.  A background cycle whose latest-event fetch fails (rejected
    request or a response that is not ok) returns the state it started
    from, field for field, and all it does is write to the console. *)
Theorem background_latest_failure_keeps_state (seen : Captured) (st : AppState) (w : World) :
  latestResponse w = Rejected \/ (exists body, latestResponse w = Replied false body) ->
  fst (fetchAllEarthquakeData seen true w st) = st /\
  snapshot (fst (fetchAllEarthquakeData seen true w st)) = snapshot st /\
  error (fst (fetchAllEarthquakeData seen true w st)) = error st /\
  snd (fetchAllEarthquakeData seen true w st) = [ConsoleError "Error fetching earthquake data:"].
Proof.
  intros H.
  assert (F : fetchLatest (latestResponse w) = None).
  { apply fetchLatest_fails. tauto. }
  rewrite (cycle_thrown seen true w st F). simpl. auto.
Qed.

Example settledState_fields :
  option_map Magnitude (latestEarthquake settledState) = Some (js "5.4") /\
  map re_DateTime (recentEarthquakes settledState) = map js ["r1"; "r2"] /\
  map re_DateTime (feltEarthquakes settledState) = map js ["f1"] /\
  error settledState = None /\ loading settledState = false /\
  hasNewData settledState = false /\ lastDataHash settledState <> "".
Proof. vm_compute. repeat split. discriminate. Qed.

Lemma background_latest_failure_keeps_state_witness :
  fst (freshCycle settledState true
         (sampleWorld (Replied false None) Rejected Rejected)) = settledState.
Proof.
  apply (background_latest_failure_keeps_state (capture settledState) settledState
           (sampleWorld (Replied false None) Rejected Rejected)).
  right. exists None. reflexivity.
Defined.

(** ** C3 *)

(** C3 as stated fails: a foreground cycle whose latest-event document has
    no [gempa] element replaces both lists and the signature of the stored
    snapshot, and leaves no error behind. *)
Lemma foreground_rootless_commits :
  let w := sampleWorld (Replied true (Some rootlessDocument))
             (Replied true (Some (feedOf [sampleQuake "r9"]))) Rejected in
  let st' := fst (freshCycle settledState false w) in
  DOM.documentQuerySelector "gempa" rootlessDocument = None /\
  map re_DateTime (recentEarthquakes settledState) = map js ["r1"; "r2"] /\
  map re_DateTime (recentEarthquakes st') = map js ["r9"] /\
  lastDataHash st' <> lastDataHash settledState /\
  snapshot st' <> snapshot settledState /\
  error st' = None.
Proof.
  vm_compute. repeat split; discriminate.
Qed.

Lemma parseXMLData_rootless (doc : DOM.Node) :
  DOM.documentQuerySelector "gempa" doc = None ->
  parseXMLData doc = (None, [ConsoleError "Error parsing XML:"]).
Proof. intros H. unfold parseXMLData. rewrite H. reflexivity. Qed.

(** C3, amended.  When the latest-event document of a foreground cycle has
    no [gempa] element, the parse failure is logged and absorbed, and the
    stored latest event stays as it was.  If the signature of the two
    lists can be computed, the lists become this cycle's lists, the
    signature is recomputed for an absent latest event, the error is
    cleared and the loading indicator is switched off.  If [btoa] throws
    on it, the cycle ends in the [catch]: the whole snapshot stays and the
    generic fetch error is set. *)
Theorem foreground_rootless_keeps_latest_only (seen : Captured) (st : AppState)
    (w : World) (doc : DOM.Node) :
  latestResponse w = Replied true (Some doc) ->
  DOM.documentQuerySelector "gempa" doc = None ->
  let st' := fst (fetchAllEarthquakeData seen false w st) in
  latestEarthquake st' = latestEarthquake st /\
  loading st' = false /\
  In (ConsoleError "Error parsing XML:") (snd (fetchAllEarthquakeData seen false w st)) /\
  match generateDataHash None (candidateRecent w) (candidateFelt w) with
  | Some h =>
      recentEarthquakes st' = candidateRecent w /\
      feltEarthquakes st' = candidateFelt w /\
      lastDataHash st' = h /\
      lastUpdated st' = Some (now w) /\
      error st' = None /\
      hasNewData st' = (if seenFlag seen then false else hasNewData st)
  | None =>
      snapshot st' = snapshot st /\
      lastUpdated st' = lastUpdated st /\
      error st' = Some fetchErrorMessage
  end /\
  (latinTimestamps (candidateRecent w) -> latinTimestamps (candidateFelt w) ->
   generateDataHash None (candidateRecent w) (candidateFelt w) <> None).
Proof.
  intros Hr Hq st'.
  assert (F : fetchLatest (latestResponse w) = Some doc) by (rewrite Hr; reflexivity).
  pose proof (parseXMLData_rootless doc Hq) as P.
  assert (C : candidateLatest doc = None) by (unfold candidateLatest; rewrite P; reflexivity).
  assert (S : candidateHash w doc = generateDataHash None (candidateRecent w) (candidateFelt w)).
  { unfold candidateHash. rewrite C. reflexivity. }
  assert (L : In (ConsoleError "Error parsing XML:")
                (snd (fetchAllEarthquakeData seen false w st))).
  { unfold fetchAllEarthquakeData, cycleFinish. rewrite F, P.
    destruct (fetchList recentWarning (recentResponse w)) as (nr & e2).
    destruct (fetchList feltWarning (feltResponse w)) as (nf & e3).
    destruct (generateDataHash None nr nf) as [h|].
    - destruct (checkAndCommit _ _ _ _ _ _ _ _) as (st1 & e4). left. reflexivity.
    - left. reflexivity. }
  destruct (generateDataHash None (candidateRecent w) (candidateFelt w)) as [h|] eqn:G.
  - destruct (cycle_lists seen false w st doc h F S) as (Er & Ef).
    subst st'. repeat split; auto.
    + rewrite (cycle_latestEarthquake seen false w st doc h F S), C. reflexivity.
    + apply (cycle_loading seen false w st doc h F S).
    + apply (cycle_lastDataHash seen false w st doc h F S).
    + apply (cycle_lastUpdated seen false w st doc h F S).
    + apply (cycle_error seen false w st doc h F S).
    + rewrite (cycle_hasNewData seen false w st doc h F S), dataChanged_foreground.
      simpl. rewrite andb_true_r. reflexivity.
    + discriminate.
  - assert (N : cycleHash w = None).
    { apply cycleHash_none. right. exists doc. auto. }
    destruct (cycle_caught seen false w st N) as (E & _).
    subst st'. rewrite E. repeat split; auto.
    intros Lr Lf.
    destruct (generateDataHash_latin None (candidateRecent w) (candidateFelt w))
      as (h & Eh); [reflexivity | exact Lr | exact Lf | congruence].
Qed.

Lemma foreground_rootless_keeps_latest_only_witness :
  let w := sampleWorld (Replied true (Some rootlessDocument))
             (Replied true (Some (feedOf [sampleQuake "r9"]))) Rejected in
  latestEarthquake (fst (freshCycle settledState false w)) =
  latestEarthquake settledState.
Proof.
  intros w.
  destruct (foreground_rootless_keeps_latest_only (capture settledState) settledState w
              rootlessDocument eq_refl eq_refl) as (H & _).
  exact H.
Defined.

(** The second branch is taken: a list timestamp with a code unit above
    255 makes the foreground cycle end in the [catch], with the generic
    error and the snapshot it started from. *)
Example foreground_rootless_unsigned :
  let w := sampleWorld (Replied true (Some rootlessDocument))
             (Replied true (Some (feedOf [sampleQuake wideTimestamp]))) Rejected in
  let st' := fst (freshCycle settledState false w) in
  generateDataHash None (candidateRecent w) (candidateFelt w) = None /\
  snapshot st' = snapshot settledState /\
  error st' = Some fetchErrorMessage.
Proof. vm_compute. repeat split. Qed.

(** ** C7 *)

Lemma fetchList_failed (msg : string) (r : Response RecentEarthquakeData) :
  listFetchFailed r = true -> fst (fetchList msg r) = [].
Proof. destruct r as [|[] [d|]]; simpl; congruence. Qed.

Lemma candidateLatest_found (doc gempaElement : DOM.Node) :
  DOM.documentQuerySelector "gempa" doc = Some gempaElement ->
  exists l, candidateLatest doc = Some l.
Proof.
  intros H. unfold candidateLatest, parseXMLData. rewrite H. eexists. reflexivity.
Qed.

(** C7 as stated fails: the recent-list fetch is rejected, the
    latest-event document arrives with its [gempa] element, and the felt
    list carries a timestamp with a code unit above 255.  [btoa] throws on
    the signature, the foreground cycle ends in the [catch]: nothing is
    committed and the error is set. *)
Lemma list_failure_can_end_in_catch :
  let doc := sampleDocument "2025-07-20T01:02:03+00:00" "6.1" in
  let w := sampleWorld (Replied true (Some doc)) Rejected
             (Replied true (Some (feedOf [sampleQuake wideTimestamp]))) in
  let st' := fst (freshCycle settledState false w) in
  listFetchFailed (recentResponse w) = true /\
  fetchLatest (latestResponse w) = Some doc /\
  option_map Magnitude (candidateLatest doc) = Some (js "6.1") /\
  candidateHash w doc = None /\
  snapshot st' = snapshot settledState /\
  option_map Magnitude (latestEarthquake st') = Some (js "5.4") /\
  map re_DateTime (recentEarthquakes st') = map js ["r1"; "r2"] /\
  error st' = Some fetchErrorMessage /\
  error st' <> None.
Proof.
  vm_compute. repeat split. discriminate.
Qed.

(** The proviso of C7 is met by every candidate whose timestamps have no
    code unit above 255. *)
Lemma candidateHash_latin (w : World) (doc : DOM.Node) :
  isLatin (latestDateTime (candidateLatest doc)) = true ->
  latinTimestamps (candidateRecent w) -> latinTimestamps (candidateFelt w) ->
  exists h, candidateHash w doc = Some h.
Proof. apply generateDataHash_latin. Qed.

(** C7, amended.  The latest-event document arrives with its [gempa]
    element and a list fetch fails (rejected, not ok, or an undecodable
    body), in a foreground or a background cycle.  When the signature of
    the candidate can be computed, the cycle commits: the stored latest
    event is the parsed one, the failed list is empty, the other list is
    what its own response gives in this cycle, the signature is the
    candidate's, and a foreground cycle ends with no error.  When [btoa]
    throws on it, the cycle ends in the [catch]: the snapshot stays as it
    was and a foreground cycle ends with the generic fetch error.  The
    signature can be computed whenever no timestamp of the candidate has a
    code unit above 255. *)
Theorem list_failure_still_commits (seen : Captured) (st : AppState) (silent : bool)
    (w : World) (doc gempaElement : DOM.Node) :
  latestResponse w = Replied true (Some doc) ->
  DOM.documentQuerySelector "gempa" doc = Some gempaElement ->
  listFetchFailed (recentResponse w) = true \/ listFetchFailed (feltResponse w) = true ->
  let st' := fst (fetchAllEarthquakeData seen silent w st) in
  match candidateHash w doc with
  | Some h =>
      latestEarthquake st' = candidateLatest doc /\
      latestEarthquake st' <> None /\
      recentEarthquakes st' = candidateRecent w /\
      feltEarthquakes st' = candidateFelt w /\
      (listFetchFailed (recentResponse w) = true -> recentEarthquakes st' = []) /\
      (listFetchFailed (feltResponse w) = true -> feltEarthquakes st' = []) /\
      lastDataHash st' = h /\
      error st' = (if silent then error st else None) /\
      (silent = false -> error st' = None)
  | None =>
      snapshot st' = snapshot st /\
      lastUpdated st' = lastUpdated st /\
      error st' = (if silent then error st else Some fetchErrorMessage)
  end /\
  (isLatin (latestDateTime (candidateLatest doc)) = true ->
   latinTimestamps (candidateRecent w) -> latinTimestamps (candidateFelt w) ->
   candidateHash w doc <> None).
Proof.
  intros Hr Hq _ st'.
  assert (F : fetchLatest (latestResponse w) = Some doc) by (rewrite Hr; reflexivity).
  destruct (candidateLatest_found doc gempaElement Hq) as (l & C).
  split.
  - destruct (candidateHash w doc) as [h|] eqn:S.
    + destruct (cycle_lists seen silent w st doc h F S) as (Er & Ef).
      assert (El : latestEarthquake st' = candidateLatest doc).
      { subst st'. rewrite (cycle_latestEarthquake seen silent w st doc h F S), C.
        reflexivity. }
      assert (Ee : error st' = (if silent then error st else None)).
      { apply (cycle_error seen silent w st doc h F S). }
      repeat split; auto.
      * rewrite El, C. discriminate.
      * intros H. subst st'. rewrite Er. apply fetchList_failed, H.
      * intros H. subst st'. rewrite Ef. apply fetchList_failed, H.
      * apply (cycle_lastDataHash seen silent w st doc h F S).
      * intros ->. exact Ee.
    + assert (N : cycleHash w = None).
      { apply cycleHash_none. right. exists doc. auto. }
      destruct (cycle_caught seen silent w st N) as (E & _).
      subst st'. cbv zeta in E. rewrite E. destruct silent; repeat split.
  - intros La Lr Lf. destruct (candidateHash_latin w doc La Lr Lf) as (h & E).
    congruence.
Qed.

Lemma list_failure_still_commits_witness :
  let w := sampleWorld (Replied true (Some (sampleDocument "2025-07-20T01:02:03+00:00" "6.1")))
             Rejected (Replied true (Some (feedOf [sampleQuake "f2"]))) in
  let st' := fst (freshCycle settledState false w) in
  option_map Magnitude (latestEarthquake st') = Some (js "6.1") /\
  recentEarthquakes st' = [] /\
  map re_DateTime (feltEarthquakes st') = map js ["f2"] /\
  error st' = None.
Proof.
  intros w st'.
  assert (S : exists h,
            candidateHash w (sampleDocument "2025-07-20T01:02:03+00:00" "6.1") = Some h)
    by (vm_compute; eexists; reflexivity).
  destruct S as (h & S).
  destruct (list_failure_still_commits (capture settledState) settledState false w
              (sampleDocument "2025-07-20T01:02:03+00:00" "6.1")
              (DOM.Element "gempa"
                 [DOM.Element "Tanggal" [DOM.Text "19 Jul 2025"];
                  DOM.Element "Jam" [DOM.Text "18:25:55 WIB"];
                  DOM.Element "DateTime" [DOM.Text "2025-07-20T01:02:03+00:00"];
                  DOM.Element "point" [DOM.Element "coordinates" [DOM.Text "-8.15,107.43"]];
                  DOM.Element "Magnitude" [DOM.Text " 6.1 "];
                  DOM.Element "Wilayah" [DOM.Text "Pusat gempa berada di laut"];
                  DOM.Element "Potensi" [DOM.Text "Tidak berpotensi tsunami"]])
              eq_refl eq_refl (or_introl eq_refl))
    as (H & _).
  rewrite S in H. destruct H as (El & _ & _ & Ef & Er & _ & _ & _ & Ee).
  subst st'. unfold freshCycle.
  rewrite El, (Er eq_refl), Ef, (Ee eq_refl). repeat split.
Defined.

(** ** C8 and C10 *)

(** While no signature is stored the flag is down. *)
Lemma reachable_flag_needs_signature (st : AppState) :
  reachable st -> lastDataHash st = "" -> hasNewData st = false.
Proof.
  induction 1 as [online dark | st silent R IH | st seen silent w R IH
                 | st v R IH | st v R IH | st v R IH | st v R IH];
    try exact IH; try reflexivity.
  - destruct silent; exact IH.
  - destruct (cycleHash w) as [h|] eqn:C.
    + apply cycleHash_some in C. destruct C as (doc & F & S).
      rewrite (finish_lastDataHash seen silent w st doc h F S). intros ->.
      exfalso. revert S. unfold candidateHash. intros S.
      exact (generateDataHash_nonempty _ _ _ _ S eq_refl).
    + destruct (finish_caught seen silent w st C) as (-> & _).
      destruct silent; exact IH.
Qed.

Lemma callbackDepsChanged_flag (before after : AppState) :
  hasNewData before <> hasNewData after -> callbackDepsChanged before after = true.
Proof.
  unfold callbackDepsChanged. intros H.
  destruct (hasNewData before), (hasNewData after); simpl;
    try (exfalso; apply H; reflexivity); apply orb_true_r.
Qed.

Lemma callbackDepsChanged_hash (before after : AppState) :
  lastDataHash before <> lastDataHash after -> callbackDepsChanged before after = true.
Proof.
  unfold callbackDepsChanged. intros H.
  destruct (String.eqb (lastDataHash before) (lastDataHash after)) eqn:E; [|reflexivity].
  apply String.eqb_eq in E. contradiction.
Qed.

Lemma callbackChanged_fetches (s : Scheduler.t) :
  filter Scheduler.isFetch (snd (Scheduler.callbackChanged s)) = [Scheduler.CallFetch false].
Proof. destruct s as [[] []]; reflexivity. Qed.

(** C8 as stated fails, twice.  The foreground fetch at mount fails, so no
    signature is stored: the background cycle that follows commits a
    signature that differs from the stored (empty) one, and the flag stays
    down.  And once a background cycle has raised the flag, the callback
    is a new function, the effect runs again and fetches in the
    foreground by itself: that cycle lowers the flag, and nobody asked for
    a refresh. *)
Lemma background_first_commit_no_flag :
  let doc := sampleDocument "2025-07-19T11:25:55+00:00" "7.0" in
  let w := sampleWorld (Replied true (Some doc)) Rejected Rejected in
  let st := fst (freshCycle (initialState true false) false
                   (sampleWorld Rejected Rejected Rejected)) in
  let st' := fst (freshCycle st true w) in
  let raised := fst (freshCycle settledState true w) in
  let commands := snd (afterRender settledState raised (fst Scheduler.mount)) in
  let lowered := fst (freshCycle raised false w) in
  (hasNewData st = false /\
   Some (lastDataHash st') = candidateHash w doc /\
   lastDataHash st' <> lastDataHash st /\
   option_map Magnitude (latestEarthquake st') = Some (js "7.0") /\
   hasNewData st' <> true) /\
  (hasNewData settledState = false /\
   hasNewData raised = true /\
   filter Scheduler.isFetch commands = [Scheduler.CallFetch false] /\
   hasNewData lowered = false).
Proof.
  vm_compute. repeat split; discriminate.
Qed.

(** C8, amended.  A commit raises the flag exactly when the signature the
    callback sees is not empty, the incoming signature differs from it and
    the cycle is silent.  The flag after a commit is up when it was raised,
    or when it was up before and the cycle is silent or its callback saw
    the flag down: so only a foreground commit lowers it, and no silent
    cycle, committed or not, does.  A silent cycle whose signature equals
    the one its callback sees leaves the flag alone and shows no
    notification, whatever the magnitude.  The foreground cycle that
    lowers the flag need not be asked for: whenever a commit changes the
    flag or the stored signature, the effect runs again and issues
    exactly one fetch, a foreground one, and such a cycle, run on a raised
    flag, lowers it exactly when it commits. *)
Theorem hasNewData_after_commit (seen : Captured) (silent : bool) (w : World)
    (parsedLatest : option EarthquakeData) (newRecent newFelt : list RecentEarthquake)
    (newHash : string) (st : AppState) (s : Scheduler.t) :
  let st' := fst (checkAndCommit seen silent w parsedLatest newRecent newFelt newHash st) in
  (hasNewData st = false ->
   (hasNewData st' = true <->
    seenHash seen <> "" /\ newHash <> seenHash seen /\ silent = true)) /\
  hasNewData st' =
    dataChanged (seenHash seen) newHash silent ||
    (if seenFlag seen && negb silent then false else hasNewData st) /\
  (hasNewData st = true -> hasNewData st' = false ->
   silent = false /\ seenFlag seen = true) /\
  (hasNewData st = true ->
   forall seen', hasNewData (fst (fetchAllEarthquakeData seen' true w st)) = true) /\
  (silent = true -> newHash = seenHash seen ->
   hasNewData st' = hasNewData st /\
   notificationFired
     (snd (checkAndCommit seen silent w parsedLatest newRecent newFelt newHash st)) = false) /\
  (hasNewData st' <> hasNewData st \/ lastDataHash st' <> lastDataHash st ->
   filter Scheduler.isFetch (snd (afterRender st st' s)) = [Scheduler.CallFetch false]) /\
  (hasNewData st = true ->
   hasNewData (fst (freshCycle st false w)) =
   match cycleHash w with Some _ => false | None => true end).
Proof.
  intros st'. subst st'.
  rewrite commit_hasNewData.
  split; [|split; [|split; [|split; [|split; [|split]]]]].
  - intros H. rewrite H. destruct (seenFlag seen && negb silent);
      rewrite orb_false_r; apply dataChanged_iff.
  - reflexivity.
  - intros H1 H2. rewrite H1 in H2. apply orb_false_iff in H2. destruct H2 as (_ & H2).
    destruct (seenFlag seen), silent; simpl in H2; try discriminate H2. split; reflexivity.
  - intros H seen'.
    destruct (cycleHash w) as [h|] eqn:C.
    + apply cycleHash_some in C. destruct C as (doc & F & S).
      rewrite (cycle_hasNewData seen' true w st doc h F S), H.
      rewrite andb_false_r. apply orb_true_r.
    + destruct (cycle_caught_data seen' true w st C) as (_ & _ & _ & _ & E & _).
      rewrite E. exact H.
  - intros -> E. rewrite commit_fired.
    rewrite E, dataChanged_same, andb_false_r. simpl. split; reflexivity.
  - intros N. unfold afterRender.
    assert (D : callbackDepsChanged st
                  (fst (checkAndCommit seen silent w parsedLatest newRecent newFelt
                          newHash st)) = true).
    { destruct N as [N|N].
      - apply callbackDepsChanged_flag. rewrite commit_hasNewData.
        intros E. apply N. symmetry. exact E.
      - apply callbackDepsChanged_hash. intros E. apply N. symmetry. exact E. }
    rewrite D. apply callbackChanged_fetches.
  - intros H. unfold freshCycle.
    destruct (cycleHash w) as [h|] eqn:C.
    + apply cycleHash_some in C. destruct C as (doc & F & S).
      rewrite (cycle_hasNewData (capture st) false w st doc h F S), dataChanged_foreground.
      cbn [capture seenFlag]. rewrite H. reflexivity.
    + destruct (cycle_caught_data (capture st) false w st C) as (_ & _ & _ & _ & E & _).
      rewrite E. exact H.
Qed.

(** A silent cycle from a state whose signature already is the candidate's:
    magnitude 7.0, permission granted, and still no flag and no
    notification. *)
Lemma hasNewData_after_commit_witness :
  let doc := sampleDocument "2025-07-19T11:25:55+00:00" "7.0" in
  let w := sampleWorld (Replied true (Some doc)) Rejected Rejected in
  let st := fst (freshCycle (initialState true false) false w) in
  let c := checkAndCommit (capture st) true w (candidateLatest doc) [] [] (lastDataHash st) st in
  isSignificant (candidateLatest doc) = true /\
  Some (lastDataHash st) = candidateHash w doc /\
  hasNewData (fst c) = false /\ notificationFired (snd c) = false.
Proof.
  intros doc w st c. split; [reflexivity|]. split; [reflexivity|].
  destruct (hasNewData_after_commit (capture st) true w (candidateLatest doc) [] []
              (lastDataHash st) st (fst Scheduler.mount))
    as (_ & _ & _ & _ & H & _).
  destruct (H eq_refl eq_refl) as (H1 & H2).
  split; [exact H1 | exact H2].
Defined.

(** C10.  In a session, a cycle that starts while the stored signature is
    still empty ends with the flag down, silent or not, committed or not,
    although every candidate signature differs from the empty one: the
    change check of line 162 is false as long as nothing is stored.  The
    same holds of a call whose callback closed over the empty signature,
    whenever it finishes. *)
Theorem first_cycle_never_flags (st : AppState) (silent : bool) (w : World) :
  reachable st ->
  lastDataHash st = "" ->
  hasNewData (fst (freshCycle st silent w)) = false /\
  (forall doc, candidateHash w doc <> Some (lastDataHash st)) /\
  (forall newHash, dataChanged (lastDataHash st) newHash silent = false) /\
  (forall seen, seenHash seen = "" ->
     hasNewData (fst (fetchAllEarthquakeData seen silent w st)) = false).
Proof.
  intros R H.
  pose proof (reachable_flag_needs_signature st R H) as N.
  assert (G : forall seen, seenHash seen = "" ->
                hasNewData (fst (fetchAllEarthquakeData seen silent w st)) = false).
  { intros seen E. destruct (cycleHash w) as [h|] eqn:C.
    - apply cycleHash_some in C. destruct C as (doc & F & S).
      rewrite (cycle_hasNewData seen silent w st doc h F S), E, N, dataChanged_first.
      destruct (seenFlag seen && negb silent); reflexivity.
    - destruct (cycle_caught_data seen silent w st C) as (_ & _ & _ & _ & E' & _).
      rewrite E'. exact N. }
  split; [|split; [|split]].
  - apply G. exact H.
  - intros doc E. rewrite H in E.
    exact (generateDataHash_nonempty _ _ _ _ E eq_refl).
  - intros newHash. rewrite H. apply dataChanged_first.
  - exact G.
Qed.

Lemma first_cycle_never_flags_witness :
  let w := sampleWorld (Replied true (Some (sampleDocument "2025-07-19T11:25:55+00:00" "7.0")))
             Rejected Rejected in
  let st' := fst (freshCycle (initialState true false) true w) in
  lastDataHash st' <> "" /\ hasNewData st' = false.
Proof.
  intros w st'. split.
  - vm_compute. discriminate.
  - destruct (first_cycle_never_flags (initialState true false) true w
                (reachable_initial true false) eq_refl) as (H & _).
    exact H.
Defined.

(** ** C9 *)

(** C9 as stated fails: switching auto-update off and on again runs the
    effect again each time, and the effect starts with a foreground
    fetch. *)
Lemma toggle_fetches_immediately :
  let off := Scheduler.toggleAutoUpdate (fst Scheduler.mount) in
  let on := Scheduler.toggleAutoUpdate (fst off) in
  snd off =
    [Scheduler.ClearInterval; Scheduler.RemoveNetworkListeners;
     Scheduler.CallFetch false; Scheduler.AddNetworkListeners] /\
  snd on =
    [Scheduler.RemoveNetworkListeners; Scheduler.CallFetch false;
     Scheduler.SetInterval 30000; Scheduler.AddNetworkListeners] /\
  existsb Scheduler.isFetch (snd off) <> false /\
  existsb Scheduler.isFetch (snd on) <> false.
Proof.
  vm_compute. repeat split; discriminate.
Qed.

(** C9, amended.  A toggle flips the flag; the timer that was pending is
    cleared exactly when auto-update was on, a 30000 ms timer is armed
    exactly when auto-update is now on, and from then on a tick fetches
    silently exactly when auto-update is on; every toggle also performs one
    immediate foreground fetch, and no other. *)
Theorem toggle_rearms_and_fetches (s : Scheduler.t) :
  Scheduler.interval s = Scheduler.autoUpdateFlag s ->
  let s' := fst (Scheduler.toggleAutoUpdate s) in
  let commands := snd (Scheduler.toggleAutoUpdate s) in
  Scheduler.autoUpdateFlag s' = negb (Scheduler.autoUpdateFlag s) /\
  Scheduler.interval s' = Scheduler.autoUpdateFlag s' /\
  (In Scheduler.ClearInterval commands <-> Scheduler.autoUpdateFlag s = true) /\
  (In (Scheduler.SetInterval 30000) commands <-> Scheduler.autoUpdateFlag s' = true) /\
  (forall ms, In (Scheduler.SetInterval ms) commands -> ms = 30000%N) /\
  Scheduler.tick s' =
    (if Scheduler.autoUpdateFlag s' then [Scheduler.CallFetch true] else []) /\
  filter Scheduler.isFetch commands = [Scheduler.CallFetch false].
Proof.
  destruct s as [[] []]; simpl; intros H; try discriminate H;
    repeat split; try reflexivity;
    try (intros; simpl in *; intuition congruence).
Qed.

Lemma toggle_rearms_and_fetches_witness :
  let off := fst (Scheduler.toggleAutoUpdate (fst Scheduler.mount)) in
  Scheduler.tick off = [] /\
  Scheduler.tick (fst (Scheduler.toggleAutoUpdate off)) = [Scheduler.CallFetch true] /\
  filter Scheduler.isFetch (snd (Scheduler.toggleAutoUpdate off)) =
    [Scheduler.CallFetch false].
Proof.
  intros off.
  destruct (toggle_rearms_and_fetches (fst Scheduler.mount) eq_refl)
    as (_ & _ & _ & _ & _ & T1 & _).
  destruct (toggle_rearms_and_fetches off eq_refl) as (_ & _ & _ & _ & _ & T2 & F2).
  split; [exact T1 | split; [exact T2 | exact F2]].
Defined.

(** ** C5 *)

(** C5 as stated fails on order-sensitivity: the timestamps "x" and "x,x"
    are distinct, and the two orders of them have the same signature. *)
Lemma reordering_can_keep_signature :
  let l := [sampleQuake "x"; sampleQuake "x,x"] in
  let l' := [sampleQuake "x,x"; sampleQuake "x"] in
  NoDup (map re_DateTime l) /\
  Permutation l l' /\
  map re_DateTime l <> map re_DateTime l' /\
  generateDataHash None l [] = generateDataHash None l' [] /\
  generateDataHash None [] l = generateDataHash None [] l' /\
  generateDataHash None l [] <> None /\
  generateDataHash None [] l <> None.
Proof.
  intros l l'. repeat split.
  - repeat constructor; simpl; intuition discriminate.
  - apply perm_swap.
  - discriminate.
  - vm_compute. discriminate.
  - vm_compute. discriminate.
Qed.

(** C5, amended.  The signature depends on the candidate only through the
    latest event's timestamp (the empty string when there is none), the
    sequence of recent timestamps and the sequence of felt timestamps:
    candidates that agree on the three have the same signature, or none
    when [btoa] throws.  When no timestamp of a list contains a comma,
    putting that list in another order of timestamps changes the
    signature: the two candidates agree only in having none. *)
Theorem signature_of_timestamps (latest latest' : option EarthquakeData)
    (recent recent' felt felt' : list RecentEarthquake) :
  (latestDateTime latest = latestDateTime latest' ->
   map re_DateTime recent = map re_DateTime recent' ->
   map re_DateTime felt = map re_DateTime felt' ->
   generateDataHash latest recent felt = generateDataHash latest' recent' felt') /\
  (commaFreeTimestamps recent -> Permutation recent recent' ->
   map re_DateTime recent <> map re_DateTime recent' ->
   (forall h h', generateDataHash latest recent felt = Some h ->
                 generateDataHash latest recent' felt = Some h' -> h <> h') /\
   (generateDataHash latest recent felt = generateDataHash latest recent' felt ->
    generateDataHash latest recent felt = None)) /\
  (commaFreeTimestamps felt -> Permutation felt felt' ->
   map re_DateTime felt <> map re_DateTime felt' ->
   (forall h h', generateDataHash latest recent felt = Some h ->
                 generateDataHash latest recent felt' = Some h' -> h <> h') /\
   (generateDataHash latest recent felt = generateDataHash latest recent felt' ->
    generateDataHash latest recent felt = None)) /\
  (isLatin (latestDateTime latest) = true -> latinTimestamps recent -> latinTimestamps felt ->
   generateDataHash latest recent felt <> None).
Proof.
  split; [|split; [|split]].
  - intros E1 E2 E3. apply generateDataHash_ext; congruence.
  - intros C P N.
    assert (D : forall h h', generateDataHash latest recent felt = Some h ->
                  generateDataHash latest recent' felt = Some h' -> h <> h').
    { intros h h' H H' E. subst h'.
      destruct (generateDataHash_inj _ _ _ _ _ _ h H H') as (_ & E & _).
      exact (reordered_join_differs recent recent' C P N E). }
    split; [exact D|].
    intros E. destruct (generateDataHash latest recent felt) as [h|] eqn:H; [|reflexivity].
    exfalso. exact (D h h eq_refl (eq_sym E) eq_refl).
  - intros C P N.
    assert (D : forall h h', generateDataHash latest recent felt = Some h ->
                  generateDataHash latest recent felt' = Some h' -> h <> h').
    { intros h h' H H' E. subst h'.
      destruct (generateDataHash_inj _ _ _ _ _ _ h H H') as (_ & _ & E).
      exact (reordered_join_differs felt felt' C P N E). }
    split; [exact D|].
    intros E. destruct (generateDataHash latest recent felt) as [h|] eqn:H; [|reflexivity].
    exfalso. exact (D h h eq_refl (eq_sym E) eq_refl).
  - intros La Lr Lf. destruct (generateDataHash_latin latest recent felt La Lr Lf) as (h & E).
    congruence.
Qed.

Lemma signature_of_timestamps_witness :
  let a := sampleQuake "2025-07-19T11:25:55+00:00" in
  let b := sampleQuake "2025-07-18T03:10:00+00:00" in
  generateDataHash None [a; b] [] <> generateDataHash None [b; a] [] /\
  generateDataHash None [a; b] [] <> None.
Proof.
  intros a b.
  destruct (signature_of_timestamps None None [a; b] [b; a] [] []) as (_ & H & _ & L).
  assert (S : generateDataHash None [a; b] [] <> None).
  { apply L; [reflexivity | repeat constructor | constructor]. }
  split; [|exact S].
  intros E. apply S.
  refine (proj2 (H _ _ _) E).
  - repeat constructor.
  - apply perm_swap.
  - discriminate.
Defined.

(** * Further properties of the code *)

(** ** Trimming *)

Lemma orElse_empty (s : jsstring) : JSString.orElse s "" = s.
Proof. destruct s; reflexivity. Qed.

Lemma trimStart_blank (s : jsstring) : JSString.trimStart s = "" <-> blank s = true.
Proof.
  induction s as [|c r IH]; simpl; [tauto|].
  destruct (JSString.isWhiteSpace c); simpl; [exact IH|].
  split; discriminate.
Qed.

Lemma trimStart_head (s : jsstring) :
  startsWithSpace (JSString.trimStart s) = false.
Proof.
  induction s as [|c r IH]; simpl; [reflexivity|].
  destruct (JSString.isWhiteSpace c) eqn:E; [exact IH | simpl; exact E].
Qed.

Lemma trimEnd_keeps_head (c : JSString.char) (r : jsstring) :
  JSString.isWhiteSpace c = false ->
  exists r', JSString.trimEnd (c :: r) = c :: r'.
Proof.
  intros E. simpl. destruct (JSString.trimEnd r); rewrite ?E; eexists; reflexivity.
Qed.

Lemma trimEnd_tail (s : jsstring) : endsWithSpace (JSString.trimEnd s) = false.
Proof.
  induction s as [|c r IH]; simpl; [reflexivity|].
  destruct (JSString.trimEnd r) as [|d r'] eqn:E.
  - destruct (JSString.isWhiteSpace c) eqn:W; simpl; [reflexivity | exact W].
  - exact IH.
Qed.

Lemma trim_blank (s : jsstring) : JSString.trim s = "" <-> blank s = true.
Proof.
  unfold JSString.trim. rewrite <- trimStart_blank.
  pose proof (trimStart_head s) as H.
  destruct (JSString.trimStart s) as [|c r]; [tauto|].
  simpl in H. destruct (trimEnd_keeps_head c r H) as (r' & ->).
  split; discriminate.
Qed.

Lemma trim_edges (s : jsstring) :
  startsWithSpace (JSString.trim s) = false /\ endsWithSpace (JSString.trim s) = false.
Proof.
  unfold JSString.trim. split; [|apply trimEnd_tail].
  pose proof (trimStart_head s) as H.
  destruct (JSString.trimStart s) as [|c r]; [reflexivity|].
  simpl in H. destruct (trimEnd_keeps_head c r H) as (r' & ->). exact H.
Qed.

Lemma getData_edges (g : DOM.Node) (tag : string) :
  startsWithSpace (getData g tag) = false /\ endsWithSpace (getData g tag) = false.
Proof.
  unfold getData. destruct (DOM.querySelector tag g) as [e|]; [|split; reflexivity].
  rewrite orElse_empty. apply trim_edges.
Qed.

(** ** The latest-event document *)

Lemma Node_induction (P : DOM.Node -> Prop) :
  (forall d, P (DOM.Text d)) ->
  (forall t cs, Forall P cs -> P (DOM.Element t cs)) ->
  forall n, P n.
Proof.
  intros HT HE.
  refine (fix self (n : DOM.Node) : P n :=
            match n with
            | DOM.Text d => HT d
            | DOM.Element t cs =>
                HE t cs
                  ((fix all (l : list DOM.Node) : Forall P l :=
                      match l with
                      | [] => Forall_nil P
                      | c :: r => Forall_cons c (self c) (all r)
                      end) cs)
            end).
Qed.

Lemma firstMatch_element (tag t : string) (cs : list DOM.Node) :
  DOM.firstMatch tag (DOM.Element t cs) =
  if String.eqb t tag then Some (DOM.Element t cs) else DOM.firstMatchAmong tag cs.
Proof.
  simpl. destruct (String.eqb t tag); [reflexivity|].
  induction cs as [|c r IH]; simpl; [reflexivity|].
  destruct (DOM.firstMatch tag c); [reflexivity | exact IH].
Qed.

Lemma containsElement_element (tag t : string) (cs : list DOM.Node) :
  containsElement tag (DOM.Element t cs) =
  String.eqb t tag || existsb (containsElement tag) cs.
Proof.
  reflexivity.
Qed.

Lemma firstMatch_named (tag : string) (n g : DOM.Node) :
  DOM.firstMatch tag n = Some g -> exists cs, g = DOM.Element tag cs.
Proof.
  revert g. induction n as [d | t cs IH] using Node_induction; intros g H.
  - discriminate H.
  - rewrite firstMatch_element in H.
    destruct (String.eqb t tag) eqn:E.
    + apply String.eqb_eq in E. subst t. injection H as <-. eexists. reflexivity.
    + clear E. induction IH as [|c r Hc _ IHr]; simpl in H; [discriminate H|].
      destruct (DOM.firstMatch tag c) as [x|] eqn:F.
      * injection H as <-. apply Hc. reflexivity.
      * apply IHr, H.
Qed.

Lemma firstMatch_none (tag : string) (n : DOM.Node) :
  DOM.firstMatch tag n = None <-> containsElement tag n = false.
Proof.
  induction n as [d | t cs IH] using Node_induction.
  - simpl. tauto.
  - rewrite firstMatch_element, containsElement_element.
    destruct (String.eqb t tag); simpl; [split; discriminate|].
    induction IH as [|c r Hc _ IHr]; simpl; [tauto|].
    destruct (DOM.firstMatch tag c) as [x|] eqn:F.
    + destruct (containsElement tag c); simpl; [split; discriminate|].
      destruct Hc as (_ & Hc). discriminate (Hc eq_refl).
    + destruct Hc as (Hc & _). rewrite (Hc eq_refl). simpl. exact IHr.
Qed.

(** X1.  [parseXMLData] returns a record exactly when an element named
    [gempa] occurs somewhere in the document, at any depth; when none
    does, it returns [null] and logs the parse error, and otherwise it logs
    nothing. *)
Theorem parseXMLData_succeeds_iff (doc : DOM.Node) :
  (fst (parseXMLData doc) = None <-> containsElement "gempa" doc = false) /\
  snd (parseXMLData doc) =
    (if containsElement "gempa" doc then [] else [ConsoleError "Error parsing XML:"]).
Proof.
  unfold parseXMLData, DOM.documentQuerySelector.
  pose proof (firstMatch_none "gempa" doc) as H.
  destruct (DOM.firstMatch "gempa" doc) as [g|]; simpl.
  - destruct (containsElement "gempa" doc).
    + split; [split; discriminate | reflexivity].
    + destruct H as (_ & H). discriminate (H eq_refl).
  - destruct H as (H & _). rewrite (H eq_refl). split; [tauto | reflexivity].
Qed.

(** X2.  Only the first [gempa] element is read: the record parsed from a
    document is the record parsed from that element alone, so nothing
    outside it (siblings, ancestors, later [gempa] elements) can reach a
    field. *)
Theorem parseXMLData_reads_gempa_only (doc gempaElement : DOM.Node) :
  DOM.documentQuerySelector "gempa" doc = Some gempaElement ->
  parseXMLData doc = parseXMLData gempaElement.
Proof.
  intros H. unfold parseXMLData. rewrite H.
  destruct (firstMatch_named "gempa" doc gempaElement H) as (cs & ->).
  unfold DOM.documentQuerySelector. rewrite firstMatch_element. reflexivity.
Qed.

Lemma parseXMLData_reads_gempa_only_witness :
  parseXMLData
    (DOM.Element "Infogempa"
       [DOM.Element "Magnitude" [DOM.Text "9.9"];
        DOM.Element "gempa" [DOM.Element "Magnitude" [DOM.Text "5.4"]];
        DOM.Element "gempa" [DOM.Element "Magnitude" [DOM.Text "7.7"]]]) =
  parseXMLData (DOM.Element "gempa" [DOM.Element "Magnitude" [DOM.Text "5.4"]]).
Proof.
  apply parseXMLData_reads_gempa_only. reflexivity.
Defined.

(** X3.  No field of a parsed record begins or ends with white space. *)
Theorem parsed_fields_are_trimmed (doc : DOM.Node) (l : EarthquakeData) :
  fst (parseXMLData doc) = Some l ->
  Forall (fun f => startsWithSpace f = false /\ endsWithSpace f = false) (fieldsOf l).
Proof.
  unfold parseXMLData. destruct (DOM.documentQuerySelector "gempa" doc) as [g|];
    [|discriminate].
  intros H. injection H as <-. unfold fieldsOf. cbn [Tanggal Jam DateTime coordinates
    Lintang Bujur Magnitude Kedalaman Wilayah Potensi Dirasakan Shakemap].
  repeat (constructor; [apply getData_edges|]). constructor.
Qed.

Lemma parsed_fields_are_trimmed_witness :
  option_map Magnitude (fst (parseXMLData (sampleDocument "t" "6.1"))) = Some (js "6.1") /\
  Forall (fun f => startsWithSpace f = false /\ endsWithSpace f = false)
    (match fst (parseXMLData (sampleDocument "t" "6.1")) with
     | Some l => fieldsOf l
     | None => []
     end).
Proof.
  split; [reflexivity|].
  destruct (fst (parseXMLData (sampleDocument "t" "6.1"))) as [l|] eqn:E; [|constructor].
  exact (parsed_fields_are_trimmed (sampleDocument "t" "6.1") l E).
Defined.

(** X4.  A field is the empty string exactly when its tag is missing below
    the [gempa] element or the text of the first such tag is blank; a
    missing tag never makes the parse fail. *)
Theorem getData_empty_iff (gempaElement : DOM.Node) (tagName : string) :
  getData gempaElement tagName = "" <->
  match DOM.querySelector tagName gempaElement with
  | None => True
  | Some element => blank (DOM.textContent element) = true
  end.
Proof.
  unfold getData. destruct (DOM.querySelector tagName gempaElement) as [e|]; [|tauto].
  rewrite orElse_empty. apply trim_blank.
Qed.

(** ** Magnitude classes *)

Lemma lt_finite (q : Q) (z : Z) :
  JSNumber.lt (JSNumber.Finite q) (JSNumber.ofZ z) = true <-> (q < inject_Z z)%Q.
Proof.
  simpl. rewrite negb_true_iff. split.
  - intros H. apply Qnot_le_lt. intros L. apply Qle_bool_iff in L. congruence.
  - intros H. destruct (Qle_bool (inject_Z z) q) eqn:E; [|reflexivity].
    apply Qle_bool_iff in E. exfalso. exact (Qlt_not_le _ _ H E).
Qed.

Lemma lt_finite_false (q : Q) (z : Z) :
  JSNumber.lt (JSNumber.Finite q) (JSNumber.ofZ z) = false <-> (inject_Z z <= q)%Q.
Proof.
  simpl. rewrite negb_false_iff. apply Qle_bool_iff.
Qed.

Lemma five_below_six (q : Q) : (q < inject_Z 5)%Q -> (q < inject_Z 6)%Q.
Proof. intros H. apply (Qlt_trans _ _ _ H). reflexivity. Qed.

(** The class as a function of what [parseFloat] returns. *)
Lemma classification_cases (darkMode : bool) (magnitude : jsstring) :
  match JSNumber.parseFloat magnitude with
  | JSNumber.NaN => classification (getMagnitudeInfo darkMode magnitude) = "Gempa Kuat"
  | JSNumber.Finite q =>
      ((q < inject_Z 5)%Q /\
       classification (getMagnitudeInfo darkMode magnitude) = "Gempa Ringan") \/
      ((inject_Z 5 <= q)%Q /\ (q < inject_Z 6)%Q /\
       classification (getMagnitudeInfo darkMode magnitude) = "Gempa Sedang") \/
      ((inject_Z 6 <= q)%Q /\
       classification (getMagnitudeInfo darkMode magnitude) = "Gempa Kuat")
  | JSNumber.Infinity negative =>
      classification (getMagnitudeInfo darkMode magnitude) =
      if negative then "Gempa Ringan" else "Gempa Kuat"
  end.
Proof.
  unfold getMagnitudeInfo.
  destruct (JSNumber.parseFloat magnitude) as [|q|[]]; try reflexivity.
  destruct (JSNumber.lt (JSNumber.Finite q) (JSNumber.ofZ 5)) eqn:L5.
  - left. split; [apply lt_finite, L5 | reflexivity].
  - apply lt_finite_false in L5.
    destruct (JSNumber.lt (JSNumber.Finite q) (JSNumber.ofZ 6)) eqn:L6.
    + right; left. repeat split; [exact L5 | apply lt_finite, L6].
    + right; right. split; [apply lt_finite_false, L6 | reflexivity].
Qed.

Ltac split_hyps :=
  repeat match goal with
  | H : _ /\ _ |- _ => destruct H
  | H : _ \/ _ |- _ => destruct H
  end.

Ltac q_absurd :=
  match goal with
  | A : (?q < ?a)%Q, C : (?a <= ?q)%Q |- _ => exfalso; exact (Qlt_not_le _ _ A C)
  | A : (?q < inject_Z 5)%Q, C : (inject_Z 6 <= ?q)%Q |- _ =>
      exfalso; exact (Qlt_not_le _ _ (five_below_six q A) C)
  end.

(** X5.  The three classes partition the magnitudes by the double that
    [parseFloat] returns: 'Gempa Ringan' exactly below 5, 'Gempa Sedang'
    exactly from 5 up to but not including 6, and 'Gempa Kuat' exactly
    from 6 on or when the string does not parse; the theme does not
    matter. *)
Theorem classification_by_value (darkMode : bool) (magnitude : jsstring) :
  (classification (getMagnitudeInfo darkMode magnitude) = "Gempa Ringan" <->
   parsesBelow magnitude 5) /\
  (classification (getMagnitudeInfo darkMode magnitude) = "Gempa Sedang" <->
   parsesAtLeast magnitude 5 /\ parsesBelow magnitude 6) /\
  (classification (getMagnitudeInfo darkMode magnitude) = "Gempa Kuat" <->
   JSNumber.parseFloat magnitude = JSNumber.NaN \/ parsesAtLeast magnitude 6).
Proof.
  pose proof (classification_cases darkMode magnitude) as H.
  unfold parsesBelow, parsesAtLeast.
  destruct (JSNumber.parseFloat magnitude) as [|q|[]];
    [ | destruct H as [(A & H) | [(A & B & H) | (A & H)]] | | ];
    rewrite H; repeat split; intros; split_hyps;
    try reflexivity; try assumption; try discriminate; try contradiction;
    try q_absurd;
    try (left; reflexivity); try (right; assumption); try (right; reflexivity).
Qed.

(** The value compared is the rounded one: a text just below a threshold
    that rounds to it is classed with the threshold. *)
Example classification_rounds :
  classification (getMagnitudeInfo false "5.9999999999999999") = "Gempa Kuat" /\
  classification (getMagnitudeInfo false "4.9999999999999999") = "Gempa Sedang" /\
  classification (getMagnitudeInfo false "5.999999999999999") = "Gempa Sedang" /\
  classification (getMagnitudeInfo false "4.999999999999999") = "Gempa Ringan" /\
  isSignificant (Some (mkEarthquakeData "" "" "" "" "" "" "5.9999999999999999" "" "" "" "" ""))
    = true.
Proof. vm_compute. repeat split. Qed.

(** X6.  Every latest event strong enough to notify (line 165) is shown as
    'Gempa Kuat', and an event shown as 'Gempa Kuat' is strong enough to
    notify unless its magnitude does not parse. *)
Theorem significant_is_kuat (darkMode : bool) (l : EarthquakeData) :
  (isSignificant (Some l) = true ->
   classification (getMagnitudeInfo darkMode (Magnitude l)) = "Gempa Kuat") /\
  (classification (getMagnitudeInfo darkMode (Magnitude l)) = "Gempa Kuat" ->
   isSignificant (Some l) = true \/ JSNumber.parseFloat (Magnitude l) = JSNumber.NaN).
Proof.
  pose proof (classification_cases darkMode (Magnitude l)) as H.
  pose proof (ge_parsesAtLeast (Magnitude l) 6) as G.
  unfold parsesAtLeast in G. cbn [isSignificant].
  destruct (JSNumber.parseFloat (Magnitude l)) as [|q|[]].
  - split; [intros _; exact H | intros _; right; reflexivity].
  - destruct H as [(A & ->) | [(A & B & ->) | (A & ->)]].
    + split; [|discriminate]. intros C. apply G in C.
      exfalso. exact (Qlt_not_le _ _ (five_below_six q A) C).
    + split; [|discriminate]. intros C. apply G in C.
      exfalso. exact (Qlt_not_le _ _ B C).
    + split; [reflexivity|]. intros _. left. apply G, A.
  - rewrite H. split; [intros C; apply G in C; discriminate C | discriminate].
  - rewrite H. split; [reflexivity | intros _; left; apply G; reflexivity].
Qed.

Lemma significant_is_kuat_witness :
  let l := mkEarthquakeData "" "" "" "" "" "" "6.0" "" "" "" "" "" in
  classification (getMagnitudeInfo true (Magnitude l)) = "Gempa Kuat".
Proof.
  intros l. destruct (significant_is_kuat true l) as (H & _).
  apply H. reflexivity.
Defined.

(** ** [getShakemapUrl] *)

(** X7.  [getShakemapUrl] returns [null] exactly for the empty file name;
    otherwise the URL is the fixed base followed by the file name, so two
    file names never share a URL. *)
Theorem getShakemapUrl_faithful (a b : jsstring) :
  (getShakemapUrl a = None <-> a = "") /\
  (a <> "" -> getShakemapUrl a = Some (js shakemapBase ++ a)) /\
  (getShakemapUrl a = getShakemapUrl b -> a = b).
Proof.
  unfold getShakemapUrl. split; [|split].
  - destruct a; simpl; split; congruence.
  - destruct a; simpl; congruence.
  - destruct a as [|c a], b as [|d b]; cbn [JSString.truthy]; intros H;
      try reflexivity; try discriminate H.
    assert (E : js shakemapBase ++ c :: a = js shakemapBase ++ d :: b) by congruence.
    exact (app_inv_head _ _ _ E).
Qed.

Lemma getShakemapUrl_faithful_witness :
  getShakemapUrl "20250719182555.mmi.jpg" =
  Some (js "https://data.bmkg.go.id/DataMKG/TEWS/20250719182555.mmi.jpg").
Proof.
  destruct (getShakemapUrl_faithful "20250719182555.mmi.jpg" "") as (_ & H & _).
  rewrite H; [reflexivity | discriminate].
Defined.

(** ** [parseCoordinates] *)

Lemma char_eqb_sym (a b : JSString.char) : JSString.char_eqb a b = JSString.char_eqb b a.
Proof.
  destruct a, b; simpl; [apply Ascii.eqb_sym | reflexivity | reflexivity | apply Pos.eqb_sym].
Qed.

Lemma char_eqb_eq (a b : JSString.char) : JSString.char_eqb a b = true <-> a = b.
Proof.
  destruct a as [x|p], b as [y|q]; simpl.
  - rewrite Ascii.eqb_eq. split; congruence.
  - split; discriminate.
  - split; discriminate.
  - rewrite Pos.eqb_eq. split; congruence.
Qed.

Lemma commaFree_cons (c : JSString.char) (s : jsstring) :
  commaFree (c :: s) = true <-> JSString.char_eqb c comma = false /\ commaFree s = true.
Proof.
  unfold commaFree. cbn [JSString.includesChar].
  rewrite negb_true_iff, orb_false_iff, negb_true_iff, (char_eqb_sym comma c).
  tauto.
Qed.

Lemma splitChar_nonempty (s : jsstring) : splitChar comma s <> [].
Proof.
  destruct s as [|c r]; simpl; [discriminate|].
  destruct (JSString.char_eqb c comma); [discriminate|].
  destruct (splitChar comma r); discriminate.
Qed.

Lemma splitChar_commaFree (s : jsstring) :
  commaFree s = true -> splitChar comma s = [s].
Proof.
  induction s as [|c r IH]; [reflexivity|].
  intros H. apply commaFree_cons in H. destruct H as (E & H).
  simpl. rewrite E, (IH H). reflexivity.
Qed.

Lemma splitChar_app (a b : jsstring) :
  commaFree a = true ->
  splitChar comma (a ++ comma :: b) = a :: splitChar comma b.
Proof.
  induction a as [|c r IH]; [reflexivity|].
  intros H. apply commaFree_cons in H. destruct H as (E & H).
  simpl. rewrite E, (IH H). reflexivity.
Qed.

Lemma splitChar_pieces (s : jsstring) :
  Forall (fun piece => commaFree piece = true) (splitChar comma s).
Proof.
  induction s as [|c r IH]; simpl; [repeat constructor|].
  destruct (JSString.char_eqb c comma) eqn:E; [constructor; [reflexivity | exact IH]|].
  destruct (splitChar comma r) as [|h t]; inversion IH; subst;
    constructor; try assumption; try (apply commaFree_cons; split; assumption).
  apply commaFree_cons. split; [exact E | reflexivity].
Qed.

(** [join] undoes [split]. *)
Lemma join_splitChar (s : jsstring) : JSString.join "," (splitChar comma s) = s.
Proof.
  induction s as [|c r IH]; [reflexivity|].
  cbn [splitChar]. destruct (JSString.char_eqb c comma) eqn:E.
  - apply char_eqb_eq in E. subst c.
    pose proof (splitChar_nonempty r) as N.
    destruct (splitChar comma r) as [|h t]; [contradiction|].
    change (JSString.join "," ([] :: h :: t)) with (comma :: JSString.join "," (h :: t)).
    rewrite IH. reflexivity.
  - pose proof (splitChar_nonempty r) as N.
    destruct (splitChar comma r) as [|h t]; [contradiction|].
    destruct t as [|h2 t].
    + simpl in IH. subst r. reflexivity.
    + change (JSString.join "," ((c :: h) :: h2 :: t))
        with (c :: (h ++ js "," ++ JSString.join "," (h2 :: t))).
      change (JSString.join "," (h :: h2 :: t))
        with (h ++ js "," ++ JSString.join "," (h2 :: t)) in IH.
      rewrite IH. reflexivity.
Qed.

Lemma commaFree_trimStart (s : jsstring) :
  commaFree s = true -> commaFree (JSString.trimStart s) = true.
Proof.
  induction s as [|c r IH]; [reflexivity|].
  intros H. simpl. destruct (JSString.isWhiteSpace c); [|exact H].
  apply commaFree_cons in H. apply IH, H.
Qed.

Lemma commaFree_trimEnd (s : jsstring) :
  commaFree s = true -> commaFree (JSString.trimEnd s) = true.
Proof.
  induction s as [|c r IH]; [reflexivity|].
  intros H. apply commaFree_cons in H. destruct H as (E & H).
  simpl. specialize (IH H).
  destruct (JSString.trimEnd r) as [|d r'].
  - destruct (JSString.isWhiteSpace c); [reflexivity|].
    apply commaFree_cons. split; [exact E | reflexivity].
  - apply commaFree_cons. split; [exact E | exact IH].
Qed.

Lemma coordinateAt_clean (coords : list jsstring) (i : nat) :
  Forall (fun piece => commaFree piece = true) coords ->
  commaFree (coordinateAt coords i) = true /\
  startsWithSpace (coordinateAt coords i) = false /\
  endsWithSpace (coordinateAt coords i) = false.
Proof.
  intros F. unfold coordinateAt.
  destruct (nth_error coords i) as [piece|] eqn:E; [|repeat split].
  rewrite orElse_empty. split.
  - apply commaFree_trimEnd, commaFree_trimStart.
    rewrite Forall_forall in F. apply F. exact (nth_error_In _ _ E).
  - apply trim_edges.
Qed.

(** X8.  A coordinate pair written as latitude, comma, longitude is split
    back into its two parts, each trimmed; whatever follows a second comma
    is ignored. *)
Theorem parseCoordinates_pair (latitude longitude rest : jsstring) :
  commaFree latitude = true ->
  commaFree longitude = true ->
  parseCoordinates (latitude ++ js "," ++ longitude) =
    {| lat := JSString.trim latitude; lng := JSString.trim longitude |} /\
  parseCoordinates (latitude ++ js "," ++ longitude ++ js "," ++ rest) =
    {| lat := JSString.trim latitude; lng := JSString.trim longitude |}.
Proof.
  intros Ha Hb. unfold parseCoordinates.
  assert (T : forall x, JSString.truthy (latitude ++ js "," ++ x) = true).
  { intros x. destruct latitude; reflexivity. }
  rewrite !T. cbn [negb].
  change (js "," ++ longitude) with (comma :: longitude).
  change (js "," ++ longitude ++ js "," ++ rest)
    with (comma :: (longitude ++ comma :: rest)).
  rewrite !splitChar_app, (splitChar_commaFree longitude) by assumption.
  unfold coordinateAt. cbn [nth_error]. rewrite !orElse_empty. split; reflexivity.
Qed.

Lemma parseCoordinates_pair_witness :
  parseCoordinates "-8.15, 107.43" = {| lat := js "-8.15"; lng := js "107.43" |}.
Proof.
  destruct (parseCoordinates_pair "-8.15" " 107.43" "" eq_refl eq_refl) as (H & _).
  exact H.
Defined.

(** X9.  Without a comma the whole trimmed string is the latitude and the
    longitude is empty (so is the latitude for the empty string); and
    whatever the input, neither part contains a comma or begins or ends
    with white space. *)
Theorem parseCoordinates_single (s : jsstring) :
  (commaFree s = true ->
   parseCoordinates s = {| lat := JSString.trim s; lng := "" |}) /\
  commaFree (lat (parseCoordinates s)) = true /\
  commaFree (lng (parseCoordinates s)) = true /\
  startsWithSpace (lat (parseCoordinates s)) = false /\
  endsWithSpace (lat (parseCoordinates s)) = false /\
  startsWithSpace (lng (parseCoordinates s)) = false /\
  endsWithSpace (lng (parseCoordinates s)) = false.
Proof.
  split.
  - intros H. unfold parseCoordinates.
    destruct s as [|c r]; [reflexivity|]. cbn [JSString.truthy negb].
    rewrite (splitChar_commaFree _ H). unfold coordinateAt. cbn [nth_error].
    rewrite orElse_empty. reflexivity.
  - unfold parseCoordinates. destruct (negb (JSString.truthy s)); [repeat split|].
    cbn [lat lng].
    destruct (coordinateAt_clean (splitChar comma s) 0 (splitChar_pieces s))
      as (A & B & C).
    destruct (coordinateAt_clean (splitChar comma s) 1 (splitChar_pieces s))
      as (A' & B' & C').
    repeat split; assumption.
Qed.

Lemma parseCoordinates_single_witness :
  parseCoordinates " 4.20 LU " = {| lat := js "4.20 LU"; lng := js "" |}.
Proof.
  destruct (parseCoordinates_single " 4.20 LU ") as (H & _).
  exact (H eq_refl).
Defined.

(** X10.  A list card shows the two parts of [Coordinates] when they are
    not blank, and falls back to [Lintang] and [Bujur], part by part, when
    they are; with an empty [Coordinates] it shows [Lintang] and [Bujur]. *)
Theorem cardCoordinates_fallback (earthquake : RecentEarthquake)
    (latitude longitude : jsstring) :
  commaFree latitude = true ->
  commaFree longitude = true ->
  (re_Coordinates earthquake = "" ->
   cardCoordinates earthquake = (re_Lintang earthquake, re_Bujur earthquake)) /\
  (re_Coordinates earthquake = latitude ++ js "," ++ longitude ->
   cardCoordinates earthquake =
   ((if blank latitude then re_Lintang earthquake else JSString.trim latitude),
    (if blank longitude then re_Bujur earthquake else JSString.trim longitude))).
Proof.
  intros Ha Hb. unfold cardCoordinates. split; intros E; rewrite E.
  - reflexivity.
  - destruct (parseCoordinates_pair latitude longitude "" Ha Hb) as (-> & _).
    cbn [lat lng].
    assert (O : forall x y, JSString.orElse (JSString.trim x) y =
                            if blank x then y else JSString.trim x).
    { intros x y. pose proof (trim_blank x) as B. unfold JSString.orElse.
      destruct (JSString.trim x) as [|c r]; destruct (blank x); try reflexivity.
      - destruct B as (B & _). discriminate (B eq_refl).
      - destruct B as (_ & B). discriminate (B eq_refl). }
    rewrite !O. reflexivity.
Qed.

Lemma cardCoordinates_fallback_witness :
  cardCoordinates
    (mkRecentEarthquake "" "" "" " ,107.43" "8.15 LS" "107.43 BT" "5.1" "" "" "" None) =
  (js "8.15 LS", js "107.43").
Proof.
  destruct (cardCoordinates_fallback
              (mkRecentEarthquake "" "" "" " ,107.43" "8.15 LS" "107.43 BT" "5.1" "" "" "" None)
              " " "107.43" eq_refl eq_refl) as (_ & H).
  exact (H eq_refl).
Defined.

(** ** List feeds *)

(** X11.  A feed of at most 15 entries is kept whole and in order, and
    slicing is idempotent: what one cycle kept, a later slice would keep
    unchanged. *)
Theorem short_feed_kept_whole (d : RecentEarthquakeData) (l : list RecentEarthquake) :
  List.length l <= 15 ->
  sliceFeed (feedOf l) = l /\
  fetchList recentWarning (Replied true (Some (feedOf l))) = (l, []) /\
  sliceFeed (feedOf (sliceFeed d)) = sliceFeed d.
Proof.
  intros H.
  assert (K : forall x : list RecentEarthquake,
             List.length x <= 15 -> sliceFeed (feedOf x) = x).
  { intros x Hx. cbv [feedOf sliceFeed Infogempa gempa]. apply firstn_all2, Hx. }
  split; [apply K, H | split].
  - cbv [fetchList]. rewrite (K l H). reflexivity.
  - apply K, sliceFeed_length.
Qed.

Lemma short_feed_kept_whole_witness :
  sliceFeed (feedOf [sampleQuake "a"; sampleQuake "b"]) = [sampleQuake "a"; sampleQuake "b"].
Proof.
  destruct (short_feed_kept_whole (feedOf []) [sampleQuake "a"; sampleQuake "b"])
    as (H & _).
  - simpl. lia.
  - exact H.
Defined.

(** ** More about a refresh cycle *)

Lemma fetchList_length (msg : string) (r : Response RecentEarthquakeData) :
  List.length (fst (fetchList msg r)) <= 15.
Proof.
  destruct r as [|[] [d|]]; simpl; try lia. apply sliceFeed_length.
Qed.

Lemma reachable_call (seen : Captured) (silent : bool) (w : World) (st : AppState) :
  reachable st -> reachable (fst (fetchAllEarthquakeData seen silent w st)).
Proof. intros R. apply reachable_finish, reachable_start, R. Qed.

Lemma settledState_reachable : reachable settledState.
Proof. apply reachable_call, reachable_initial. Qed.

(** X12.  In every state of a session both stored lists have at most 15
    entries. *)
Theorem reachable_lists_bounded (st : AppState) :
  reachable st ->
  List.length (recentEarthquakes st) <= 15 /\ List.length (feltEarthquakes st) <= 15.
Proof.
  induction 1 as [online dark | st silent R IH | st seen silent w R IH
                 | st v R IH | st v R IH | st v R IH | st v R IH];
    try exact IH.
  - simpl. lia.
  - destruct silent; exact IH.
  - destruct (cycleHash w) as [h|] eqn:C.
    + apply cycleHash_some in C. destruct C as (doc & F & S).
      destruct (finish_lists seen silent w st doc h F S) as (-> & ->).
      split; apply fetchList_length.
    + destruct (finish_caught seen silent w st C) as (-> & _).
      destruct silent; exact IH.
Qed.

Lemma reachable_lists_bounded_witness :
  List.length (recentEarthquakes settledState) <= 15 /\
  List.length (feltEarthquakes settledState) <= 15.
Proof.
  apply reachable_lists_bounded. apply reachable_call, reachable_initial.
Defined.

(** X13.  In every state of a session, either nothing has been committed
    yet (no signature, no latest event, empty lists, no update time), or an
    update time is recorded and the stored signature is the signature of
    the stored lists taken with the stored latest event or with no latest
    event. *)
Theorem reachable_signature_matches_data (st : AppState) :
  reachable st ->
  (lastDataHash st = "" /\ latestEarthquake st = None /\
   recentEarthquakes st = [] /\ feltEarthquakes st = [] /\ lastUpdated st = None) \/
  (lastUpdated st <> None /\
   (Some (lastDataHash st) =
      generateDataHash (latestEarthquake st) (recentEarthquakes st) (feltEarthquakes st) \/
    Some (lastDataHash st) =
      generateDataHash None (recentEarthquakes st) (feltEarthquakes st))).
Proof.
  induction 1 as [online dark | st silent R IH | st seen silent w R IH
                 | st v R IH | st v R IH | st v R IH | st v R IH];
    try exact IH.
  - left. repeat split.
  - destruct silent; exact IH.
  - destruct (cycleHash w) as [h|] eqn:C.
    + apply cycleHash_some in C. destruct C as (doc & F & S).
      right.
      rewrite (finish_lastUpdated seen silent w st doc h F S),
              (finish_lastDataHash seen silent w st doc h F S),
              (finish_latestEarthquake seen silent w st doc h F S).
      destruct (finish_lists seen silent w st doc h F S) as (-> & ->).
      split; [discriminate|]. unfold candidateHash in S.
      destruct (candidateLatest doc); [left | right]; symmetry; exact S.
    + destruct (finish_caught seen silent w st C) as (-> & _).
      destruct silent; exact IH.
Qed.

Lemma reachable_signature_matches_data_witness :
  lastUpdated settledState <> None /\
  Some (lastDataHash settledState) =
    generateDataHash (latestEarthquake settledState)
      (recentEarthquakes settledState) (feltEarthquakes settledState).
Proof.
  destruct (reachable_signature_matches_data settledState) as [(E & _) | (U & _)].
  - apply reachable_call, reachable_initial.
  - vm_compute in E. discriminate E.
  - split; [exact U | vm_compute; reflexivity].
Defined.

(** X14.  A foreground cycle whose latest fetch fails (rejected, not ok, or
    an unreadable body) keeps the stored data, signature and flag, sets
    the user-visible error message, switches loading off, and only logs to
    the console. *)
Theorem foreground_latest_failure (seen : Captured) (st : AppState) (w : World) :
  fetchLatest (latestResponse w) = None ->
  let st' := fst (fetchAllEarthquakeData seen false w st) in
  snapshot st' = snapshot st /\
  lastUpdated st' = lastUpdated st /\
  error st' = Some fetchErrorMessage /\
  loading st' = false /\
  snd (fetchAllEarthquakeData seen false w st) =
    [ConsoleError "Error fetching earthquake data:"].
Proof.
  intros F. rewrite (cycle_thrown seen false w st F). repeat split.
Qed.

Lemma foreground_latest_failure_witness :
  let st' := fst (freshCycle settledState false
                    (sampleWorld (Replied true None) Rejected Rejected)) in
  snapshot st' = snapshot settledState /\ error st' = Some fetchErrorMessage.
Proof.
  intros st'.
  destruct (foreground_latest_failure (capture settledState) settledState
              (sampleWorld (Replied true None) Rejected Rejected) eq_refl)
    as (H1 & _ & H2 & _).
  split; [exact H1 | exact H2].
Defined.

(** X15.  When the latest fetch fails the list feeds are not consulted:
    the outcome is the same whatever the two list responses, the
    notification permission and the clock are. *)
Theorem latest_failure_short_circuits (seen : Captured) (st : AppState) (silent : bool)
    (w w' : World) :
  fetchLatest (latestResponse w) = None ->
  latestResponse w' = latestResponse w ->
  fetchAllEarthquakeData seen silent w' st = fetchAllEarthquakeData seen silent w st.
Proof.
  intros F E.
  rewrite (cycle_thrown seen silent w st F).
  apply cycle_thrown. rewrite E. exact F.
Qed.

Lemma latest_failure_short_circuits_witness :
  freshCycle settledState true
    (sampleWorld Rejected (Replied true (Some (feedOf twentyQuakes))) Rejected) =
  freshCycle settledState true (sampleWorld Rejected Rejected Rejected).
Proof.
  apply latest_failure_short_circuits; reflexivity.
Defined.

(** X16.  Polling again with the same three responses does not alert
    again when the second poll runs the callback of the render that
    followed the first: it shows no notification and leaves the flag as it
    is.  A second poll that still runs an older callback compares with the
    signature that callback closed over: when that one is not empty and
    differs from the candidate's, the flag is raised and the notification
    decided again, although the store already holds the candidate's
    signature. *)
Theorem repeated_poll_is_quiet (seen : Captured) (st : AppState) (silent : bool)
    (w : World) :
  let st1 := fst (fetchAllEarthquakeData seen silent w st) in
  notificationFired (snd (freshCycle st1 true w)) = false /\
  hasNewData (fst (freshCycle st1 true w)) = hasNewData st1 /\
  (forall stale doc h,
     fetchLatest (latestResponse w) = Some doc ->
     candidateHash w doc = Some h ->
     seenHash stale <> "" -> seenHash stale <> h ->
     lastDataHash st1 = h /\
     hasNewData (fst (fetchAllEarthquakeData stale true w st1)) = true /\
     notificationFired (snd (fetchAllEarthquakeData stale true w st1)) =
     isSignificant (candidateLatest doc) && notificationGranted (notification w)).
Proof.
  intros st1. unfold freshCycle.
  destruct (cycleHash w) as [h|] eqn:C.
  - apply cycleHash_some in C. destruct C as (doc & F & S).
    rewrite (cycle_fired (capture st1) true w st1 doc h F S),
            (cycle_hasNewData (capture st1) true w st1 doc h F S).
    cbn [capture seenHash seenFlag].
    assert (E : lastDataHash st1 = h).
    { subst st1. apply (cycle_lastDataHash seen silent w st doc h F S). }
    rewrite E, dataChanged_same, andb_false_r.
    split; [reflexivity | split; [reflexivity|]].
    intros stale doc' h' F' S' N D.
    assert (doc' = doc) by congruence. subst doc'.
    assert (h' = h) by congruence. subst h'.
    assert (Ch : dataChanged (seenHash stale) h true = true).
    { apply dataChanged_iff. auto. }
    rewrite (cycle_hasNewData stale true w st1 doc h F S),
            (cycle_fired stale true w st1 doc h F S), Ch.
    repeat split.
  - destruct (cycle_caught (capture st1) true w st1 C) as (E & Q).
    rewrite Q. cbv zeta in E. rewrite E.
    split; [reflexivity | split; [reflexivity|]].
    intros stale doc h F S _ _. exfalso.
    assert (cycleHash w = Some h) by (apply cycleHash_some; exists doc; auto).
    congruence.
Qed.

(** Two polls in flight on the callback of the same render: both compare
    with the signature of that render, and both notify. *)
Lemma repeated_poll_is_quiet_witness :
  let doc := sampleDocument "2025-07-20T01:02:03+00:00" "6.1" in
  let w := sampleWorld (Replied true (Some doc)) Rejected Rejected in
  let first := freshCycle settledState true w in
  notificationFired (snd first) = true /\
  notificationFired (snd (fetchAllEarthquakeData (capture settledState) true w (fst first)))
    = true /\
  notificationFired (snd (freshCycle (fst first) true w)) = false.
Proof.
  intros doc w first.
  destruct (repeated_poll_is_quiet (capture settledState) settledState true w)
    as (Q & _ & H).
  split; [vm_compute; reflexivity|]. split; [|exact Q].
  assert (S : exists h, candidateHash w doc = Some h)
    by (vm_compute; eexists; reflexivity).
  destruct S as (h & S).
  destruct (H (capture settledState) doc h eq_refl S) as (_ & _ & N).
  - vm_compute. discriminate.
  - intros E. subst h. vm_compute in S. discriminate S.
  - unfold first, freshCycle. rewrite N. reflexivity.
Defined.

Lemma commit_notifications (seen : Captured) (silent : bool) (w : World)
    (parsedLatest : option EarthquakeData) (newRecent newFelt : list RecentEarthquake)
    (newHash : string) (st : AppState) :
  notificationsOf
    (snd (checkAndCommit seen silent w parsedLatest newRecent newFelt newHash st)) = [] \/
  exists l, parsedLatest = Some l /\
    notificationsOf
      (snd (checkAndCommit seen silent w parsedLatest newRecent newFelt newHash st)) =
    [strongQuakeNotification l].
Proof.
  rewrite commit_effects.
  destruct (_ && _ && _); [|left; reflexivity].
  destruct parsedLatest as [l|]; [|left; reflexivity].
  right. exists l. split; reflexivity.
Qed.

Lemma notificationsOf_app (a b : list Effect) :
  notificationsOf (a ++ b) = (notificationsOf a ++ notificationsOf b)%list.
Proof. apply filter_app. Qed.

Lemma notificationsOf_quiet (l : list Effect) :
  notificationFired l = false -> notificationsOf l = [].
Proof.
  induction l as [|e r IH]; [reflexivity|]. simpl.
  destruct (isNotification e); simpl; [discriminate | exact IH].
Qed.

(** X17.  A cycle shows at most one notification, and the one it shows is
    about the latest event parsed in that very cycle: its body is "M",
    the magnitude, " - " and the region. *)
Theorem at_most_one_notification (seen : Captured) (st : AppState) (silent : bool)
    (w : World) :
  notificationsOf (snd (fetchAllEarthquakeData seen silent w st)) = [] \/
  exists doc l,
    fetchLatest (latestResponse w) = Some doc /\
    candidateLatest doc = Some l /\
    notificationsOf (snd (fetchAllEarthquakeData seen silent w st)) =
    [ShowNotification "🚨 Gempa Kuat Terdeteksi!"
       (js "M" ++ Magnitude l ++ js " - " ++ Wilayah l) "/favicon.ico"].
Proof.
  destruct (cycleHash w) as [h|] eqn:C.
  - apply cycleHash_some in C. destruct C as (doc & F & S).
    unfold fetchAllEarthquakeData.
    rewrite (finish_committed seen silent w _ doc h F S). cbv zeta. cbn [snd].
    rewrite !notificationsOf_app,
            (notificationsOf_quiet _ (parseXMLData_quiet doc)),
            !(notificationsOf_quiet _ (fetchList_quiet _ _)).
    cbn [app].
    match goal with
    | |- context [checkAndCommit ?a ?b ?c ?d ?e ?f ?g ?i] =>
        destruct (commit_notifications a b c d e f g i) as [E | (l & P & E)]
    end.
    + left. exact E.
    + right. exists doc, l. repeat split; [exact F | exact P | exact E].
  - left. destruct (cycle_caught seen silent w st C) as (_ & Q).
    apply notificationsOf_quiet, Q.
Qed.

(** X18.  A cycle never touches the auto-update switch, the theme, the
    online indicator or the selected tab, and a background cycle never
    touches the loading indicator or the error. *)
Theorem cycle_frame (seen : Captured) (st : AppState) (silent : bool) (w : World) :
  let st' := fst (fetchAllEarthquakeData seen silent w st) in
  autoUpdate st' = autoUpdate st /\
  darkMode st' = darkMode st /\
  isOnline st' = isOnline st /\
  activeTab st' = activeTab st /\
  loading (fst (fetchAllEarthquakeData seen true w st)) = loading st /\
  error (fst (fetchAllEarthquakeData seen true w st)) = error st.
Proof.
  cbv zeta.
  destruct (cycleHash w) as [h|] eqn:C.
  - apply cycleHash_some in C. destruct C as (doc & F & S).
    rewrite (cycle_loading seen true w st doc h F S), (cycle_error seen true w st doc h F S).
    unfold fetchAllEarthquakeData.
    destruct (finish_switches seen silent w (cycleStart silent st) doc h F S)
      as (-> & -> & -> & ->).
    destruct silent; repeat split.
  - destruct (cycle_caught seen true w st C) as (-> & _).
    destruct (cycle_caught seen silent w st C) as (-> & _).
    destruct silent; repeat split.
Qed.

(** X19.  After any foreground cycle the loading indicator is off, and
    the error is set exactly when the cycle arrived at no signature: the
    latest fetch failed, or [btoa] threw on the candidate.  A foreground
    cycle that commits lowers the flag when its callback saw it up, and
    one that ends in the [catch] leaves it alone. *)
Theorem foreground_outcome (seen : Captured) (st : AppState) (w : World) :
  let st' := fst (fetchAllEarthquakeData seen false w st) in
  loading st' = false /\
  (error st' = None <-> cycleHash w <> None) /\
  (error st' = Some fetchErrorMessage <-> cycleHash w = None) /\
  (cycleHash w = None <->
   fetchLatest (latestResponse w) = None \/
   exists doc, fetchLatest (latestResponse w) = Some doc /\ candidateHash w doc = None) /\
  hasNewData st' =
    (match cycleHash w with
     | Some _ => if seenFlag seen then false else hasNewData st
     | None => hasNewData st
     end).
Proof.
  cbv zeta. split; [|split; [|split; [|split]]]; try apply cycleHash_none;
    destruct (cycleHash w) as [h|] eqn:C;
    try (apply cycleHash_some in C; destruct C as (doc & F & S));
    try (destruct (cycle_caught seen false w st C) as (E & _); cbv zeta in E; rewrite E).
  - apply (cycle_loading seen false w st doc h F S).
  - reflexivity.
  - rewrite (cycle_error seen false w st doc h F S). split; [discriminate | reflexivity].
  - cbn. split; [discriminate | intros N; exfalso; apply N; reflexivity].
  - rewrite (cycle_error seen false w st doc h F S). split; discriminate.
  - cbn. split; reflexivity.
  - rewrite (cycle_hasNewData seen false w st doc h F S), dataChanged_foreground.
    simpl. rewrite andb_true_r. reflexivity.
  - reflexivity.
Qed.

(** A foreground cycle whose latest fetch succeeds and parses, and that
    still ends with the error set. *)
Example foreground_outcome_unsigned :
  let w := sampleWorld (Replied true (Some (sampleDocument wideTimestamp "5.0")))
             Rejected Rejected in
  fetchLatest (latestResponse w) <> None /\
  cycleHash w = None /\
  error (fst (freshCycle settledState false w)) = Some fetchErrorMessage.
Proof. vm_compute. repeat split. discriminate. Qed.

(** ** What the signature sees *)

(** X20.  A candidate has the signature of another exactly when the two
    agree on the latest timestamp and on the two comma-joined timestamp
    strings; for comma-free timestamps and lists of equal length this means
    the same timestamps in the same order, in the recent list and in the
    felt list. *)
Theorem signature_equal_iff (latest latest' : option EarthquakeData)
    (recent recent' felt felt' : list RecentEarthquake) (h : string) :
  generateDataHash latest recent felt = Some h ->
  (generateDataHash latest' recent' felt' = Some h <->
   latestDateTime latest = latestDateTime latest' /\
   JSString.join "," (map re_DateTime recent) = JSString.join "," (map re_DateTime recent') /\
   JSString.join "," (map re_DateTime felt) = JSString.join "," (map re_DateTime felt')) /\
  (commaFreeTimestamps recent -> commaFreeTimestamps recent' ->
   List.length recent = List.length recent' ->
   generateDataHash latest' recent' felt' = Some h ->
   map re_DateTime recent = map re_DateTime recent') /\
  (commaFreeTimestamps felt -> commaFreeTimestamps felt' ->
   List.length felt = List.length felt' ->
   generateDataHash latest' recent' felt' = Some h ->
   map re_DateTime felt = map re_DateTime felt').
Proof.
  intros H. split; [|split].
  - split.
    + intros H'. exact (generateDataHash_inj _ _ _ _ _ _ h H H').
    + intros (E1 & E2 & E3). rewrite <- H. symmetry.
      apply generateDataHash_ext; assumption.
  - intros C C' L H'.
    destruct (generateDataHash_inj _ _ _ _ _ _ h H H') as (_ & E & _).
    apply join_comma_inj; [rewrite !length_map; exact L | | | exact E];
      apply commaFreeTimestamps_map; assumption.
  - intros C C' L H'.
    destruct (generateDataHash_inj _ _ _ _ _ _ h H H') as (_ & _ & E).
    apply join_comma_inj; [rewrite !length_map; exact L | | | exact E];
      apply commaFreeTimestamps_map; assumption.
Qed.

(** Two candidates that differ in a magnitude and in the length of the
    felt list (a felt list of one empty timestamp joins to the empty
    string, as the empty list does) and have one signature; their recent
    timestamps are then the same. *)
Lemma signature_equal_iff_witness :
  let recent := [sampleQuake "a"; sampleQuake "b"] in
  let recent' := [mkRecentEarthquake "" "" "a" "" "" "" "7.7" "" "" "" None;
                  sampleQuake "b"] in
  exists h,
    generateDataHash None recent [] = Some h /\
    generateDataHash None recent' [sampleQuake ""] = Some h /\
    recent <> recent' /\
    map re_DateTime recent = map re_DateTime recent'.
Proof.
  intros recent recent'.
  assert (S : exists h, generateDataHash None recent [] = Some h)
    by (vm_compute; eexists; reflexivity).
  destruct S as (h & S). exists h.
  destruct (signature_equal_iff None None recent recent' [] [sampleQuake ""] h S)
    as (H & R & _).
  assert (S' : generateDataHash None recent' [sampleQuake ""] = Some h).
  { apply H. repeat split. }
  split; [exact S | split; [exact S' | split; [discriminate|]]].
  apply R; [repeat constructor | repeat constructor | reflexivity | exact S'].
Defined.

(** X21.  A change that keeps every timestamp is not seen: when the
    candidate of a background cycle has the timestamps of the signature
    its callback sees, whatever else differs (magnitude, region, felt
    reports), the flag is not raised and nothing is notified, while the
    stored data is replaced by the candidate's. *)
Theorem same_timestamps_go_unnoticed (seen : Captured) (st : AppState) (w : World)
    (l0 l1 : option EarthquakeData) (r0 f0 r1 f1 : list RecentEarthquake)
    (newHash : string) :
  generateDataHash l0 r0 f0 = Some (seenHash seen) ->
  generateDataHash l1 r1 f1 = Some newHash ->
  latestDateTime l1 = latestDateTime l0 ->
  map re_DateTime r1 = map re_DateTime r0 ->
  map re_DateTime f1 = map re_DateTime f0 ->
  let c := checkAndCommit seen true w l1 r1 f1 newHash st in
  newHash = seenHash seen /\
  hasNewData (fst c) = hasNewData st /\
  notificationFired (snd c) = false /\
  recentEarthquakes (fst c) = r1 /\
  feltEarthquakes (fst c) = f1 /\
  lastDataHash (fst c) = seenHash seen.
Proof.
  intros H H1 E1 E2 E3 c. subst c.
  assert (S : newHash = seenHash seen).
  { assert (E : generateDataHash l1 r1 f1 = generateDataHash l0 r0 f0)
      by (apply generateDataHash_ext; congruence).
    congruence. }
  subst newHash.
  rewrite commit_hasNewData, commit_fired, commit_lastDataHash, dataChanged_same.
  destruct (commit_lists seen true w l1 r1 f1 (seenHash seen) st) as (-> & ->).
  rewrite andb_false_r. repeat split.
Qed.

Lemma same_timestamps_go_unnoticed_witness :
  let quiet := mkEarthquakeData "" "" "t" "" "" "" "5.0" "" "Laut" "" "" "" in
  let strong := mkEarthquakeData "" "" "t" "" "" "" "7.9" "" "Darat" "" "" "" in
  let w := sampleWorld Rejected Rejected Rejected in
  exists h,
    generateDataHash (Some quiet) [] [] = Some h /\
    let st := fst (checkAndCommit (capture (initialState true false)) false w
                     (Some quiet) [] [] h (initialState true false)) in
    let c := checkAndCommit (capture st) true w (Some strong) [] [] h st in
    isSignificant (Some strong) = true /\
    lastDataHash st = h /\
    hasNewData (fst c) = false /\ notificationFired (snd c) = false.
Proof.
  intros quiet strong w.
  assert (S : exists h, generateDataHash (Some quiet) [] [] = Some h)
    by (vm_compute; eexists; reflexivity).
  destruct S as (h & S). exists h. split; [exact S|].
  intros st c. split; [reflexivity|]. split; [reflexivity|].
  destruct (same_timestamps_go_unnoticed (capture st) st w
              (Some quiet) (Some strong) [] [] [] [] h S S
              eq_refl eq_refl eq_refl) as (_ & H1 & H2 & _).
  split; [exact H1 | exact H2].
Defined.

(** ** The effect and its timer *)

Lemma liveTimers_app (a b : list Scheduler.Command) :
  liveTimers (a ++ b) = (liveTimers a + liveTimers b)%Z.
Proof.
  induction a as [|c a IH]; [reflexivity|].
  destruct c; simpl; rewrite IH; lia.
Qed.

Lemma liveListeners_app (a b : list Scheduler.Command) :
  liveListeners (a ++ b) = (liveListeners a + liveListeners b)%Z.
Proof.
  induction a as [|c a IH]; [reflexivity|].
  destruct c; simpl; rewrite IH; lia.
Qed.

Lemma schedulerStep_balanced (s : Scheduler.t) (issued : list Scheduler.Command)
    (e : SchedulerEvent) :
  schedulerBalanced s issued ->
  schedulerBalanced (fst (schedulerStep s e)) (issued ++ snd (schedulerStep s e)).
Proof.
  unfold schedulerBalanced. intros (I & T & L).
  rewrite liveTimers_app, liveListeners_app, T, L.
  destruct s as [[] []]; try discriminate I; destruct e; simpl; repeat split; lia.
Qed.

Lemma schedulerRun_balanced (events : list SchedulerEvent) :
  forall s issued,
    schedulerBalanced s issued ->
    schedulerBalanced (fst (schedulerRun s issued events))
                      (snd (schedulerRun s issued events)).
Proof.
  induction events as [|e rest IH]; intros s issued B; [exact B|].
  simpl. pose proof (schedulerStep_balanced s issued e B) as B'.
  destruct (schedulerStep s e) as [s' cs]. apply IH, B'.
Qed.

(** X22.  However the toggle is clicked, the callback replaced and the
    timer fired after mounting, no timer leaks: exactly one timer is live
    while auto-update is on and none while it is off, exactly one pair of
    network listeners is registered, and unmounting then clears the timer
    and the listeners. *)
Theorem scheduler_never_leaks (events : list SchedulerEvent) :
  let s := fst (schedulerTrace events) in
  let issued := snd (schedulerTrace events) in
  liveTimers issued = (if Scheduler.autoUpdateFlag s then 1 else 0)%Z /\
  liveListeners issued = 1%Z /\
  liveTimers (issued ++ Scheduler.cleanup s) = 0%Z /\
  liveListeners (issued ++ Scheduler.cleanup s) = 0%Z.
Proof.
  cbv zeta.
  assert (B : schedulerBalanced (fst (schedulerTrace events)) (snd (schedulerTrace events))).
  { apply schedulerRun_balanced. repeat split. }
  destruct B as (I & T & L).
  rewrite liveTimers_app, liveListeners_app, T, L.
  destruct (fst (schedulerTrace events)) as [[] []]; try discriminate I;
    simpl; repeat split; lia.
Qed.

(** X23.  Clicking the toggle twice brings the scheduler back to where it
    was, at the price of two foreground fetches; and a timer tick fetches
    silently, once, exactly when auto-update is on. *)
Theorem double_toggle (s : Scheduler.t) :
  Scheduler.interval s = Scheduler.autoUpdateFlag s ->
  let once := Scheduler.toggleAutoUpdate s in
  let twice := Scheduler.toggleAutoUpdate (fst once) in
  fst twice = s /\
  filter Scheduler.isFetch (snd once ++ snd twice) =
    [Scheduler.CallFetch false; Scheduler.CallFetch false] /\
  Scheduler.tick s =
    (if Scheduler.autoUpdateFlag s then [Scheduler.CallFetch true] else []).
Proof.
  destruct s as [[] []]; intros H; try discriminate H; repeat split.
Qed.

Lemma double_toggle_witness :
  fst (Scheduler.toggleAutoUpdate
         (fst (Scheduler.toggleAutoUpdate (fst Scheduler.mount)))) = fst Scheduler.mount.
Proof.
  destruct (double_toggle (fst Scheduler.mount) eq_refl) as (H & _).
  exact H.
Defined.

(** X24.  The effect re-runs when the callback is replaced, and the
    callback is replaced when the stored signature or the flag changes.  A
    cycle that arrives at no signature changes neither; and once a
    foreground cycle has committed, a second foreground cycle that meets
    the same responses changes neither, so the re-runs stop. *)
Theorem callback_settles (seen : Captured) (st : AppState) (silent : bool) (w : World)
    (s : Scheduler.t) :
  (cycleHash w = None ->
   let st' := fst (fetchAllEarthquakeData seen silent w st) in
   callbackDepsChanged st st' = false /\ afterRender st st' s = (s, [])) /\
  (cycleHash w <> None ->
   let st1 := fst (freshCycle st false w) in
   let st2 := fst (freshCycle st1 false w) in
   callbackDepsChanged st1 st2 = false /\ afterRender st1 st2 s = (s, [])).
Proof.
  assert (A : forall x y, callbackDepsChanged x y = false -> afterRender x y s = (s, [])).
  { intros x y H. unfold afterRender. rewrite H. reflexivity. }
  split.
  - intros C st'.
    assert (D : callbackDepsChanged st st' = false).
    { unfold callbackDepsChanged. subst st'.
      destruct (cycle_caught_data seen silent w st C) as (_ & _ & _ & -> & -> & _).
      rewrite String.eqb_refl, Bool.eqb_reflx. reflexivity. }
    split; [exact D | apply A, D].
  - intros C st1 st2.
    destruct (cycleHash w) as [h|] eqn:E; [clear C | contradiction].
    apply cycleHash_some in E. destruct E as (doc & F & S).
    assert (D : callbackDepsChanged st1 st2 = false).
    { unfold callbackDepsChanged. subst st2. unfold freshCycle.
      rewrite (cycle_lastDataHash (capture st1) false w st1 doc h F S),
              (cycle_hasNewData (capture st1) false w st1 doc h F S).
      subst st1. unfold freshCycle.
      rewrite (cycle_lastDataHash (capture st) false w st doc h F S),
              (cycle_hasNewData (capture st) false w st doc h F S).
      rewrite !dataChanged_foreground, String.eqb_refl. cbn [capture seenFlag].
      rewrite (cycle_hasNewData (capture st) false w st doc h F S),
              dataChanged_foreground.
      cbn [capture seenFlag]. destruct (hasNewData st); reflexivity. }
    split; [exact D | apply A, D].
Qed.

Lemma callback_settles_witness :
  let w := sampleWorld (Replied true (Some (sampleDocument "2025-07-19T11:25:55+00:00" "5.4")))
             Rejected Rejected in
  let st1 := fst (freshCycle (initialState true false) false w) in
  callbackDepsChanged (initialState true false) st1 = true /\
  callbackDepsChanged st1 (fst (freshCycle st1 false w)) = false.
Proof.
  intros w st1. split; [vm_compute; reflexivity|].
  destruct (callback_settles (capture (initialState true false)) (initialState true false)
              false w (fst Scheduler.mount)) as (_ & H).
  apply H. vm_compute. discriminate.
Defined.


(** ** Which screen is rendered *)

(** X25.  Once a latest event is stored no cycle removes it, and the main
    screen stays: neither the loading screen nor the error screen comes
    back, whatever later cycles meet.  Without a stored latest event a
    foreground cycle that ends in the [catch] ends on the error screen. *)
Theorem data_stays_on_screen (seen : Captured) (st : AppState) (silent : bool) (w : World) :
  (latestEarthquake st <> None ->
   latestEarthquake (fst (fetchAllEarthquakeData seen silent w st)) <> None /\
   screen (fst (fetchAllEarthquakeData seen silent w st)) = MainScreen) /\
  (latestEarthquake st = None -> cycleHash w = None ->
   screen (fst (fetchAllEarthquakeData seen false w st)) = ErrorScreen).
Proof.
  split.
  - intros H.
    assert (K : latestEarthquake (fst (fetchAllEarthquakeData seen silent w st)) <> None).
    { destruct (cycleHash w) as [h|] eqn:C.
      - apply cycleHash_some in C. destruct C as (doc & F & S).
        rewrite (cycle_latestEarthquake seen silent w st doc h F S).
        destruct (candidateLatest doc); [discriminate | exact H].
      - destruct (cycle_caught_data seen silent w st C) as (-> & _). exact H. }
    split; [exact K|]. unfold screen.
    destruct (latestEarthquake (fst (fetchAllEarthquakeData seen silent w st)));
      [|contradiction]. cbn [isNull]. rewrite !andb_false_r. reflexivity.
  - intros H C. destruct (cycle_caught seen false w st C) as (E & _).
    cbv zeta in E. rewrite E. unfold screen. cbn. rewrite H. reflexivity.
Qed.

Lemma data_stays_on_screen_witness :
  screen (fst (freshCycle settledState false
                 (sampleWorld Rejected Rejected Rejected))) = MainScreen /\
  screen (fst (freshCycle (initialState true false) false
                 (sampleWorld Rejected Rejected Rejected))) = ErrorScreen.
Proof.
  split.
  - destruct (data_stays_on_screen (capture settledState) settledState false
                (sampleWorld Rejected Rejected Rejected)) as (H & _).
    apply H. vm_compute. discriminate.
  - destruct (data_stays_on_screen (capture (initialState true false))
                (initialState true false) false
                (sampleWorld Rejected Rejected Rejected)) as (_ & H).
    apply H; reflexivity.
Defined.

(** ** The tsunami badge *)

Lemma toLowerCase_app (a b : string) :
  toLowerCase (a ++ b)%string = (toLowerCase a ++ toLowerCase b)%string.
Proof. induction a as [|c a IH]; simpl; [reflexivity | rewrite IH; reflexivity]. Qed.

Lemma toLowerCase_split (p x y : string) :
  toLowerCase p = (x ++ y)%string ->
  exists p1 p2, p = (p1 ++ p2)%string /\ toLowerCase p1 = x /\ toLowerCase p2 = y.
Proof.
  revert p. induction x as [|c x IH]; intros p H.
  - exists "", p. repeat split. exact H.
  - destruct p as [|d p]; [discriminate H|]. simpl in H. injection H as Hc H.
    destruct (IH p H) as (p1 & p2 & -> & E1 & E2).
    exists (String d p1), p2. simpl. rewrite Hc, E1. repeat split. exact E2.
Qed.

Lemma prefix_app (sub rest : string) : String.prefix sub (sub ++ rest)%string = true.
Proof.
  induction sub as [|c sub IH]; simpl; [destruct rest; reflexivity|].
  destruct (ascii_dec c c); [exact IH | contradiction].
Qed.

Lemma prefix_split (sub s : string) :
  String.prefix sub s = true -> exists rest, s = (sub ++ rest)%string.
Proof.
  revert s. induction sub as [|c sub IH]; intros s H.
  - exists s. reflexivity.
  - destruct s as [|d s]; [discriminate H|]. simpl in H.
    destruct (ascii_dec c d) as [->|]; [|discriminate H].
    destruct (IH s H) as (rest & ->). exists rest. reflexivity.
Qed.

Lemma includes_iff (sub s : string) :
  includes sub s = true <-> exists before after, s = (before ++ sub ++ after)%string.
Proof.
  split.
  - induction s as [|c s IH]; cbn [includes]; rewrite orb_true_iff; intros [H|H].
    + destruct (prefix_split _ _ H) as (rest & E). exists "", rest. exact E.
    + discriminate H.
    + destruct (prefix_split _ _ H) as (rest & E). exists "", rest. exact E.
    + destruct (IH H) as (before & after & ->).
      exists (String c before), after. reflexivity.
  - intros (before & after & ->).
    induction before as [|c before IH].
    + cbn [append]. destruct (sub ++ after)%string eqn:E; cbn [includes];
        rewrite <- E, prefix_app; reflexivity.
    + cbn [append includes]. rewrite IH. apply orb_true_r.
Qed.

(** X26.  The tsunami badge is green exactly when the text contains
    "tidak" in some mix of upper and lower case, anywhere: whatever text
    surrounds the word plays no part. *)
Theorem noTsunamiBadge_iff (potensi : string) :
  noTsunamiBadge potensi = true <->
  exists before marker after,
    potensi = (before ++ marker ++ after)%string /\ toLowerCase marker = "tidak".
Proof.
  unfold noTsunamiBadge. rewrite includes_iff. split.
  - intros (x & y & H).
    destruct (toLowerCase_split _ _ _ H) as (before & p2 & -> & _ & H2).
    destruct (toLowerCase_split _ _ _ H2) as (marker & after & -> & Hm & _).
    exists before, marker, after. split; [reflexivity | exact Hm].
  - intros (before & marker & after & -> & Hm).
    exists (toLowerCase before), (toLowerCase after).
    rewrite !toLowerCase_app, Hm. reflexivity.
Qed.

Example noTsunamiBadge_samples :
  map noTsunamiBadge
    ["Tidak berpotensi tsunami"; "TIDAK BERPOTENSI TSUNAMI"; "Berpotensi tsunami"; ""] =
  [true; true; false; false].
Proof. reflexivity. Qed.


(** ** When [btoa] throws *)

(** X27.  A cycle whose candidate cannot be signed ends in the [catch],
    although every fetch succeeded: a background cycle returns the state
    it started from, a foreground cycle keeps the stored data, signature
    and flag, sets the error message and switches loading off; nothing is
    committed and nothing notified, and the failure is logged. *)
Theorem unsigned_candidate_is_dropped (seen : Captured) (st : AppState) (silent : bool)
    (w : World) (doc : DOM.Node) :
  fetchLatest (latestResponse w) = Some doc ->
  candidateHash w doc = None ->
  let st' := fst (fetchAllEarthquakeData seen silent w st) in
  snapshot st' = snapshot st /\
  lastUpdated st' = lastUpdated st /\
  (silent = true -> st' = st) /\
  (silent = false -> error st' = Some fetchErrorMessage /\ loading st' = false) /\
  notificationFired (snd (fetchAllEarthquakeData seen silent w st)) = false /\
  In (ConsoleError "Error fetching earthquake data:")
     (snd (fetchAllEarthquakeData seen silent w st)).
Proof.
  intros F U st'.
  assert (C : cycleHash w = None).
  { apply cycleHash_none. right. exists doc. auto. }
  destruct (cycle_caught seen silent w st C) as (E & Q).
  assert (L : In (ConsoleError "Error fetching earthquake data:")
                (snd (fetchAllEarthquakeData seen silent w st))).
  { unfold fetchAllEarthquakeData.
    destruct (finish_caught seen silent w (cycleStart silent st) C) as (_ & _ & L).
    exact L. }
  subst st'. cbv zeta in E. rewrite E.
  destruct silent; repeat split; auto; discriminate.
Qed.

Lemma unsigned_candidate_is_dropped_witness :
  let doc := sampleDocument wideTimestamp "7.2" in
  let w := sampleWorld (Replied true (Some doc))
             (Replied true (Some (feedOf [sampleQuake "r9"]))) Rejected in
  isSignificant (candidateLatest doc) = true /\
  fst (freshCycle settledState true w) = settledState /\
  notificationFired (snd (freshCycle settledState true w)) = false.
Proof.
  intros doc w. split; [vm_compute; reflexivity|].
  destruct (unsigned_candidate_is_dropped (capture settledState) settledState true w doc
              eq_refl eq_refl) as (_ & _ & H & _ & Q & _).
  split; [exact (H eq_refl) | exact Q].
Defined.

(** X28.  A signature is produced exactly when the three quoted strings
    hold no code unit above 255; this is so whenever the timestamps hold
    none, and a lone surrogate does no harm, because [JSON.stringify]
    writes it as an escape. *)
Theorem signature_produced_iff (latest : option EarthquakeData)
    (recent felt : list RecentEarthquake) :
  (generateDataHash latest recent felt <> None <->
   isLatin (JSON.escape (latestDateTime latest)) = true /\
   isLatin (JSON.escape (JSString.join "," (map re_DateTime recent))) = true /\
   isLatin (JSON.escape (JSString.join "," (map re_DateTime felt))) = true) /\
  (isLatin (latestDateTime latest) = true -> latinTimestamps recent ->
   latinTimestamps felt -> generateDataHash latest recent felt <> None) /\
  generateDataHash None [sampleQuake [JSString.ofCode 55357]] [] <> None /\
  generateDataHash None [sampleQuake [JSString.ofCode 8722]] [] = None /\
  generateDataHash None [sampleQuake [JSString.ofCode 55357; JSString.ofCode 56960]] []
    = None.
Proof.
  split; [|split; [|split; [|split]]].
  - unfold generateDataHash.
    assert (B : forall s, btoa s <> None <-> isLatin s = true).
    { intros s. rewrite btoa_some. split.
      - intros N. destruct (btoa s) as [h|]; [exists h; reflexivity | contradiction].
      - intros (h & ->). discriminate. }
    rewrite B, stringifyData_latin, !andb_true_iff. tauto.
  - intros La Lr Lf. destruct (generateDataHash_latin latest recent felt La Lr Lf) as (h & E).
    congruence.
  - vm_compute. discriminate.
  - vm_compute. reflexivity.
  - vm_compute. reflexivity.
Qed.

Lemma signature_produced_iff_witness :
  generateDataHash None [sampleQuake "2025-07-19T11:25:55+00:00"] [] <> None.
Proof.
  destruct (signature_produced_iff None [sampleQuake "2025-07-19T11:25:55+00:00"] [])
    as (_ & H & _).
  apply H; [reflexivity | repeat constructor | constructor].
Defined.
